(** * pymmcore-plus: the unicore camera contract and the configuration model

    A shallow embedding of [CameraDevice]
    (src/pymmcore_plus/experimental/unicore/devices/_camera.py) together with
    models of the discrete-state devices, the configuration store and the
    config merge engine that tests/00_unicore/test_config_groups.py
    exercises, followed by the properties established about them.

    Python integers are unbounded, so they are [Z] throughout.  Methods that
    mutate [self] return the instance after the call next to the outcome, so
    that what a failed call leaves behind can be stated. *)

From Stdlib Require Import ZArith Lia.
From stdpp Require Import base option list strings pretty gmap.

Local Open Scope Z_scope.

(** ** Python prelude: exceptions, values, slices and arrays *)

Module Py.

(** The built-in exception classes the code raises; [Exception_] is the
    base class [Exception], for an error whose concrete class is not
    determined by the sources. *)
Inductive exc_class :=
| ValueError
| TypeError
| RuntimeError
| NotImplementedError
| IndexError
| Exception_.

(** Class names along the method resolution order of each class. *)
Definition exc_mro (c : exc_class) : list string :=
  match c with
  | ValueError => ["ValueError"; "Exception"; "BaseException"; "object"]
  | TypeError => ["TypeError"; "Exception"; "BaseException"; "object"]
  | RuntimeError => ["RuntimeError"; "Exception"; "BaseException"; "object"]
  | NotImplementedError =>
      ["NotImplementedError"; "RuntimeError"; "Exception"; "BaseException";
       "object"]
  | IndexError =>
      ["IndexError"; "LookupError"; "Exception"; "BaseException"; "object"]
  | Exception_ => ["Exception"; "BaseException"; "object"]
  end%string.

Record exn := Exn { exn_class : exc_class; exn_msg : string }.

(** [isinstance(e, cls)] with the class given by name. *)
Definition isinstance (e : exn) (cls : string) : bool :=
  bool_decide (cls ∈ exc_mro (exn_class e)).

(** Outcome of a call: a value, or a raised exception. *)
Inductive res (A : Type) :=
| Ok (a : A)
| Raise (e : exn).
Arguments Ok {A} a.
Arguments Raise {A} e.

Definition is_ok {A} (r : res A) : bool :=
  match r with Ok _ => true | Raise _ => false end.

Definition res_map {A B} (f : A -> B) (r : res A) : res B :=
  match r with Ok a => Ok (f a) | Raise e => Raise e end.

(** Values exchanged through device properties. *)
Inductive pyval :=
| PNone
| PInt (z : Z)
| PStr (s : string).

(** Insertion-ordered dicts as association lists with unique keys. *)

(** [d[k] = v] *)
Fixpoint dict_set {K V} `{EqDecision K} (k : K) (v : V) (d : list (K * V))
  : list (K * V) :=
  match d with
  | [] => [(k, v)]
  | (k', v') :: d' =>
      if decide (k = k') then (k, v) :: d' else (k', v') :: dict_set k v d'
  end.

(** [d.get(k)] *)
Fixpoint dict_get {K V} `{EqDecision K} (k : K) (d : list (K * V))
  : option V :=
  match d with
  | [] => None
  | (k', v') :: d' => if decide (k = k') then Some v' else dict_get k d'
  end.

(** [d.pop(k, None)], keeping the dict *)
Fixpoint dict_del {K V} `{EqDecision K} (k : K) (d : list (K * V))
  : list (K * V) :=
  match d with
  | [] => []
  | (k', v') :: d' =>
      if decide (k = k') then dict_del k d' else (k', v') :: dict_del k d'
  end.

(** Python strings are taken as sequences of code points below 256, one
    per character. *)

(** The value of a decimal digit. *)
Definition digit_value (a : Ascii.ascii) : option Z :=
  let n := Z.of_N (Ascii.N_of_ascii a) in
  if (48 <=? n) && (n <=? 57) then Some (n - 48) else None.

(** The characters [int()] skips around a literal: tab to carriage return
    and the blank, and the whitespace beyond ASCII (next line, no-break
    space).  The separators 28 to 31 are whitespace to [str.isspace] but
    not to [int()]. *)
Definition is_space (a : Ascii.ascii) : bool :=
  let n := Z.of_N (Ascii.N_of_ascii a) in
  ((9 <=? n) && (n <=? 13)) || (n =? 32) || (n =? 133) || (n =? 160).

Fixpoint skip_spaces (s : string) : string :=
  match s with
  | EmptyString => EmptyString
  | String a s' => if is_space a then skip_spaces s' else s
  end.

(** The interpreter's default limit on the digits of an integer literal
    ([sys.get_int_max_str_digits()]). *)
Definition int_max_str_digits : Z := 4300.

(** The digits of a literal, with single underscores between digits, up to
    the trailing whitespace: the value and the number of digits read. *)
Fixpoint parse_digits (acc n : Z) (after_underscore : bool) (s : string)
  : option (Z * Z) :=
  match s with
  | EmptyString => if after_underscore then None else Some (acc, n)
  | String a s' =>
      match digit_value a with
      | Some d => parse_digits (10 * acc + d) (n + 1) false s'
      | None =>
          if after_underscore then None
          else if decide (a = Ascii.ascii_of_nat 95)
          then parse_digits acc n true s'
          else match skip_spaces s with
               | EmptyString => Some (acc, n)
               | _ => None
               end
      end
  end.

(** [int(s)] for a string: whitespace around the literal, an optional sign
    (characters 43 and 45), then digits that may be grouped by single
    underscores (character 95) and must start and end with a digit; [None]
    stands for the [ValueError] of any other string, and of a literal with
    more digits than the interpreter's limit. *)
Definition parse_int (s : string) : option Z :=
  let s1 := skip_spaces s in
  let '(negative, s2) :=
    match s1 with
    | String a r =>
        if decide (a = Ascii.ascii_of_nat 45) then (true, r)
        else if decide (a = Ascii.ascii_of_nat 43) then (false, r)
        else (false, s1)
    | EmptyString => (false, EmptyString)
    end in
  match s2 with
  | EmptyString => None
  | String a _ =>
      match digit_value a with
      | None => None
      | Some _ =>
          match parse_digits 0 0 false s2 with
          | Some (v, n) =>
              if n <=? int_max_str_digits
              then Some (if negative then - v else v)
              else None
          | None => None
          end
      end
  end.

(** The [ValueError] of [int(s)] on a string it refuses.  Only its class
    is modelled: the interpreter's message goes on to quote the string, and
    is another one for a literal with too many digits. *)
Definition invalid_literal : exn :=
  Exn ValueError "invalid literal for int() with base 10".

(** Index normalisation of [a[start:stop]] on an axis of length [len]:
    negative indices count from the end, and both ends are clamped. *)
Definition slice_index (i len : Z) : Z :=
  if i <? 0 then Z.max 0 (i + len) else Z.min i len.

(** First index and number of items selected by [a[start:stop]]. *)
Definition slice_bounds (start stop len : Z) : Z * Z :=
  let s := slice_index start len in
  let e := slice_index stop len in
  (s, Z.max 0 (e - s)).

(** The shape of an array as NumPy prints it in its messages. *)
Definition shape_text (shape : list Z) : string :=
  "(" +:+ String.concat "," (map pretty shape)
      +:+ (if (length shape =? 1)%nat then "," else "") +:+ ")".

(** Broadcasting of [out[...] = v]: entries equal to 1 are dropped from the
    front of the source shape for as long as it has more axes than the
    destination. *)
Fixpoint strip_leading_ones (n : nat) (sv : list Z) : list Z :=
  match sv with
  | [] => []
  | d :: sv' =>
      if (n <? length sv)%nat && (d =? 1) then strip_leading_ones n sv'
      else sv
  end.

(** Axis by axis, a source axis fits a destination axis when it has the
    same length or length 1. *)
Fixpoint axes_fit (so sv : list Z) : bool :=
  match so, sv with
  | [], [] => true
  | o :: so', v :: sv' => ((v =? o) || (v =? 1)) && axes_fit so' sv'
  | _, _ => false
  end.

(** When a source of shape [sv] broadcasts to a destination of shape [so]:
    the source index that a destination index reads.  The source shape,
    stripped, is aligned with the last axes of the destination; an axis of
    length 1 is read at 0 throughout. *)
Definition broadcast_index (so sv : list Z) : option (list Z -> list Z) :=
  let sv' := strip_leading_ones (length so) sv in
  let lead := (length so - length sv')%nat in
  if (length sv' <=? length so)%nat && axes_fit (drop lead so) sv'
  then Some (fun idx =>
               replicate (length sv - length sv') 0
                 ++ zip_with (fun i d => if d =? 1 then 0 else i)
                      (drop lead idx) sv')
  else None.

Section Arrays.
Context {px : Type} `{Inhabited px}.

(** An array: its NumPy shape and its elements, addressed by one index per
    axis.  Only index tuples within the shape are meaningful. *)
Record ndarray := NDArray { arr_shape : list Z; arr_at : list Z -> px }.

(** [np.empty(shape, dtype)]: the content is whatever was in memory, which
    is taken not to run out. *)
Definition np_empty (shape : list Z) : res ndarray :=
  if forallb (fun d => 0 <=? d) shape
  then Ok {| arr_shape := shape; arr_at := fun _ => inhabitant |}
  else Raise (Exn ValueError "negative dimensions are not allowed").

(** [a[y : y + h, x : x + w]] *)
Definition crop (a : ndarray) (y h x w : Z) : res ndarray :=
  match arr_shape a with
  | H :: W :: rest =>
      let '(ys, hh) := slice_bounds y (y + h) H in
      let '(xs, ww) := slice_bounds x (x + w) W in
      Ok {| arr_shape := hh :: ww :: rest;
            arr_at := fun idx =>
                        match idx with
                        | r :: c :: tl => arr_at a (ys + r :: xs + c :: tl)
                        | _ => inhabitant
                        end |}
  | s =>
      Raise (Exn IndexError
               ("too many indices for array: array is " +:+ pretty (length s)
                  +:+ "-dimensional, but 2 were indexed"))
  end.

(** [out[:] = v]: [v] is broadcast to the shape of [out], which keeps its
    shape; a [v] that does not broadcast is the [ValueError] of NumPy, whose
    message gives the source shape as stripped, and an [out] without axes
    cannot be sliced.  Elements are stored as they are: both arrays have
    the [dtype] the sequence works with. *)
Definition assign_all (out v : ndarray) : res ndarray :=
  match arr_shape out with
  | [] =>
      Raise (Exn IndexError
               "too many indices for array: array is 0-dimensional, but 1 were indexed")
  | so =>
      match broadcast_index so (arr_shape v) with
      | Some f =>
          Ok {| arr_shape := so; arr_at := fun idx => arr_at v (f idx) |}
      | None =>
          Raise (Exn ValueError
                   ("could not broadcast input array from shape "
                      +:+ shape_text
                            (strip_leading_ones (length so) (arr_shape v))
                      +:+ " into shape " +:+ shape_text so))
      end
  end.

End Arrays.
Arguments ndarray : clear implicits.

End Py.

(** ** The camera device contract (_camera.py) *)

Module Camera.
Import Py.

(** Members of [Keyword] used as property names (pymmcore_plus.core._constants). *)
Inductive Keyword :=
| ActualInterval_ms
| Binning
| CameraID
| CameraName
| CCDTemperature
| CCDTemperatureSetPoint
| EMGain
| Exposure
| Gain
| Interval_ms
| Offset
| ReadoutMode
| ReadoutTime
| Metadata_ROI_X
| Metadata_ROI_Y.

(** A property name: a [Keyword] member or a plain string. *)
Inductive prop_key :=
| KW (k : Keyword)
| Lit (s : string).

#[global] Instance Keyword_eq_dec : EqDecision Keyword.
Proof. solve_decision. Defined.

#[global] Instance prop_key_eq_dec : EqDecision prop_key.
Proof. solve_decision. Defined.

(** Declared Python type of a property's value. *)
Inductive prop_type :=
| Tfloat
| Tint
| Tstr
| TPixelFormat.

(** [STANDARD_PROPERTIES], in the order the mapping lists them. *)
Definition STANDARD_PROPERTIES : list (prop_key * (string * prop_type)) :=
  [ (KW ActualInterval_ms, ("actual_interval_ms", Tfloat));
    (KW Binning, ("binning", Tint));
    (KW CameraID, ("camera_id", Tstr));
    (KW CameraName, ("camera_name", Tstr));
    (KW CCDTemperature, ("ccd_temperature", Tfloat));
    (KW CCDTemperatureSetPoint, ("ccd_temperature_set_point", Tfloat));
    (KW EMGain, ("em_gain", Tfloat));
    (KW Exposure, ("exposure", Tfloat));
    (KW Gain, ("gain", Tfloat));
    (KW Interval_ms, ("interval_ms", Tfloat));
    (KW Offset, ("offset", Tfloat));
    (Lit "PixelFormat", ("pixel_format", TPixelFormat));
    (KW ReadoutMode, ("readout_mode", Tstr));
    (KW ReadoutTime, ("readout_time", Tfloat));
    (KW Metadata_ROI_X, ("roi_x", Tint));
    (KW Metadata_ROI_Y, ("roi_y", Tint)) ]%string.

(** A region of interest [(x, y, width, height)]. *)
Definition ROI : Type := Z * Z * Z * Z.

(** What the default acquisition loop does to buffers, in order. *)
Inductive event :=
| EvEmpty (shape : list Z)
| EvGetBuffer (shape : list Z) (b : nat)
| EvSnapInto (b : option nat)
| EvCropInto (y h x w : Z) (b : nat).

Section Defs.
Context {D Meta DType px : Type} `{Inhabited px}.

(** A method taking [self] and positional arguments; [D] is the instance
    state a concrete camera class keeps. *)
Definition callable : Type := D -> list pyval -> D * res pyval.

(** Modelled from the spec: the property descriptor that
    [Device.register_property] (in _device_base.py) stores: name, declared type,
    getter, optional setter (absence means read-only) and the optional
    sequencing hooks. *)
Record PropertyDescriptor := {
  prop_name : prop_key;
  property_type : prop_type;
  getter : callable;
  setter : option callable;
  sequence_loader : option callable;
  sequence_starter : option callable;
  sequence_stopper : option callable
}.

(** A camera instance: the concrete class's own state, the [_roi] attribute
    and the property registry kept by the [Device] base. *)
Record camera := {
  cam_dev : D;
  _roi : option ROI;
  cam_props : list (prop_key * PropertyDescriptor)
}.

(** The caller's buffers, by identity; [get_buffer] hands out one of them. *)
Definition buffer_provider : Type :=
  list Z -> DType -> gmap nat (ndarray px) -> gmap nat (ndarray px) * nat.

(** The camera, the caller's buffers and the log of buffer operations. *)
Record world := {
  w_cam : camera;
  w_bufs : gmap nat (ndarray px);
  w_log : list event
}.

(** Result of [next(it)] on the iterator [start_sequence] returns. *)
Inductive pull :=
| Yield (meta : Meta)
| StopIteration
| Raised (e : exn).

(** An override of [snap]: fills the buffer it is given (the array keeps its
    shape) and returns the frame metadata. *)
Definition snap_fn : Type := D -> ndarray px -> D * Meta * (list Z -> px).

(** An override of [start_sequence]: an iterator with a state of its own. *)
Record sequence_fn := {
  seq_state : Type;
  seq_start : option Z -> buffer_provider -> seq_state;
  seq_next : seq_state -> world -> seq_state * world * pull
}.

(** A concrete subclass of [CameraDevice].  The abstract methods are
    mandatory; [cls_snap] and [cls_start_sequence] are [None] when the class
    inherits the base method; [cls_dict] holds the other methods the class
    defines, by name. *)
Record CameraClass := {
  cls_name : string;
  cls_get_exposure : callable;
  cls_set_exposure : callable;
  cls_sensor_shape : D -> list Z;
  cls_dtype : D -> DType;
  cls_snap : option snap_fn;
  cls_start_sequence : option sequence_fn;
  cls_dict : gmap string callable
}.

Definition with_roi (cam : camera) (r : option ROI) : camera :=
  {| cam_dev := cam_dev cam; _roi := r; cam_props := cam_props cam |}.

Definition with_dev (cam : camera) (d : D) : camera :=
  {| cam_dev := d; _roi := _roi cam; cam_props := cam_props cam |}.

(** *** Standard properties *)

(** [CameraDevice.get_binning]: the default getter. *)
Definition get_binning : callable := fun d _ => (d, Ok (PInt 1)).

(** [getattr(cls, name, None)] for a method name: the abstract methods
    resolve to the class's implementations, then come the class's own
    methods, then what [CameraDevice] itself defines.  The [Device] base
    (not part of these sources) is taken to define none of the
    [get_]/[set_]/[load_]/[start_]/[stop_] names looked up here. *)
Definition class_getattr (cls : CameraClass) (name : string)
  : option callable :=
  if decide (name = "get_exposure") then Some (cls_get_exposure cls)
  else if decide (name = "set_exposure") then Some (cls_set_exposure cls)
  else match cls_dict cls !! name with
       | Some m => Some m
       | None =>
           if decide (name = "get_binning") then Some get_binning else None
       end.

(** Modelled from the spec: [Device.register_property] (in _device_base.py),
    the registry's [register(name, type, getter, setter?, sequence_hooks?)]:
    it files the descriptor under the property's name. *)
Definition register_property (cam : camera) (name : prop_key)
    (ty : prop_type) (fget : callable) (fset sl ss sp : option callable)
  : camera :=
  {| cam_dev := cam_dev cam;
     _roi := _roi cam;
     cam_props :=
       dict_set name
         {| prop_name := name; property_type := ty; getter := fget;
            setter := fset; sequence_loader := sl; sequence_starter := ss;
            sequence_stopper := sp |}
         (cam_props cam) |}.

(** One iteration of the loop in [register_standard_properties]. *)
Definition register_standard_property (cls : CameraClass) (cam : camera)
    (item : prop_key * (string * prop_type)) : camera :=
  let '(name, (snake_name, ty)) := item in
  match class_getattr cls ("get_" +:+ snake_name) with
  | Some fget =>
      register_property cam name ty fget
        (class_getattr cls ("set_" +:+ snake_name))
        (class_getattr cls ("load_" +:+ snake_name +:+ "_sequence"))
        (class_getattr cls ("start_" +:+ snake_name +:+ "_sequence"))
        (class_getattr cls ("stop_" +:+ snake_name +:+ "_sequence"))
  | None => cam
  end.

Definition register_standard_properties (cls : CameraClass) (cam : camera)
  : camera :=
  foldl (register_standard_property cls) cam STANDARD_PROPERTIES.

(** Modelled from the spec: [Device.__init__] (in _device_base.py), which
    leaves the device with the property registry of the [Device] base; the
    registry starts empty and the [_roi] class attribute is [None]. *)
Definition Device_init (d : D) : camera :=
  {| cam_dev := d; _roi := None; cam_props := [] |}.

(** [CameraDevice.__init__], run on the state [d] the subclass has set up. *)
Definition CameraDevice_init (cls : CameraClass) (d : D) : res camera :=
  match cls_snap cls, cls_start_sequence cls with
  | None, None =>
      Raise (Exn TypeError
               (cls_name cls +:+ " must implement snap() or start_sequence()"))
  | _, _ => Ok (register_standard_properties cls (Device_init d))
  end.

(** Modelled from the spec: the registry's [get(name)], which calls the stored
    getter on the device, and the read-only test (no setter). *)
Definition get_property_value (cam : camera) (name : prop_key)
  : option (res pyval) :=
  match dict_get name (cam_props cam) with
  | Some p => Some (snd (getter p (cam_dev cam) []))
  | None => None
  end.

Definition is_property_read_only (cam : camera) (name : prop_key)
  : option bool :=
  match dict_get name (cam_props cam) with
  | Some p => Some (bool_decide (setter p = None))
  | None => None
  end.

(** *** ROI support *)

Definition sensor_shape (cls : CameraClass) (cam : camera) : list Z :=
  cls_sensor_shape cls (cam_dev cam).

Definition shape (cls : CameraClass) (cam : camera) : list Z :=
  match _roi cam with
  | Some (_, _, w, h) => [h; w]
  | None => sensor_shape cls cam
  end.

(** The error of [h, w, *_ = t] on a tuple that is too short. *)
Definition unpack_error (t : list Z) : exn :=
  Exn ValueError
    ("not enough values to unpack (expected at least 2, got "
       +:+ pretty (length t) +:+ ")").

Definition get_roi (cls : CameraClass) (cam : camera) : res ROI :=
  match _roi cam with
  | Some r => Ok r
  | None =>
      match sensor_shape cls cam with
      | h :: w :: _ => Ok (0, 0, w, h)
      | t => Raise (unpack_error t)
      end
  end.

Definition roi_text (x y width height : Z) : string :=
  "(" +:+ pretty x +:+ ", " +:+ pretty y +:+ ", " +:+ pretty width
      +:+ ", " +:+ pretty height +:+ ")".

Definition set_roi (cls : CameraClass) (cam : camera) (x y width height : Z)
  : camera * res unit :=
  match sensor_shape cls cam with
  | h :: w :: _ =>
      if (x <? 0) || (y <? 0) || (width <=? 0) || (height <=? 0)
      then (cam,
            Raise (Exn ValueError
                     ("Invalid ROI " +:+ roi_text x y width height +:+ ": "
                        +:+ "coordinates must be non-negative and dimensions positive.")))
      else if (x + width >? w) || (y + height >? h)
      then (cam,
            Raise (Exn ValueError
                     ("ROI " +:+ roi_text x y width height
                        +:+ " exceeds sensor bounds (" +:+ pretty w +:+ "x"
                        +:+ pretty h +:+ ").")))
      else (with_roi cam (Some (x, y, width, height)), Ok tt)
  | t => (cam, Raise (unpack_error t))
  end.

Definition clear_roi (cam : camera) : camera := with_roi cam None.

(** *** Acquisition *)

(** [self.snap(buf)]: the class's override, or [CameraDevice.snap]. *)
Definition snap (cls : CameraClass) (cam : camera) (buf : ndarray px)
  : camera * res (Meta * ndarray px) :=
  match cls_snap cls with
  | Some f =>
      let '(d, meta, data) := f (cam_dev cam) buf in
      (with_dev cam d,
       Ok (meta, {| arr_shape := arr_shape buf; arr_at := data |}))
  | None =>
      (cam,
       Raise (Exn NotImplementedError
                (cls_name cls +:+ " must implement snap() or start_sequence()")))
  end.

(** The generator [CameraDevice.start_sequence] returns.  Its body runs only
    when the iterator is pulled: [GenCreated] has not started, [GenNoRoi] and
    [GenRoi] are suspended at the [yield] of either loop with the local
    variables of the frame, [GenDone] has returned or raised. *)
Inductive generator :=
| GenCreated (n : option Z) (get_buffer : buffer_provider)
| GenNoRoi (get_buffer : buffer_provider) (sensor : list Z) (dtype : DType)
    (count limit : Z)
| GenRoi (get_buffer : buffer_provider) (sensor : list Z) (dtype : DType)
    (x y w h : Z) (full_buf : ndarray px) (count limit : Z)
| GenDone.

Definition start_sequence (n : option Z) (get_buffer : buffer_provider)
  : generator :=
  GenCreated n get_buffer.

(** The world after the caller has acted on the camera between two pulls. *)
Definition with_cam (wd : world) (cam : camera) : world :=
  {| w_cam := cam; w_bufs := w_bufs wd; w_log := w_log wd |}.

Definition log_event (wd : world) (e : event) : world :=
  {| w_cam := w_cam wd; w_bufs := w_bufs wd; w_log := w_log wd ++ [e] |}.

(** What [get_buffer] returned is not an array the caller holds. *)
Definition not_a_buffer : exn :=
  Exn TypeError "get_buffer did not return an array".

(** The [while count < limit] loop of the branch without ROI, from the loop
    test up to the next [yield]. *)
Definition noroi_loop (cls : CameraClass) (get_buffer : buffer_provider)
    (sensor : list Z) (dtype : DType) (count limit : Z) (wd : world)
  : generator * world * pull :=
  if count <? limit then
    let '(bufs1, b) := get_buffer sensor dtype (w_bufs wd) in
    let log1 := w_log wd ++ [EvGetBuffer sensor b] in
    match bufs1 !! b with
    | None =>
        (GenDone, {| w_cam := w_cam wd; w_bufs := bufs1; w_log := log1 |},
         Raised not_a_buffer)
    | Some buf =>
        match snap cls (w_cam wd) buf with
        | (cam1, Ok (meta, buf1)) =>
            (GenNoRoi get_buffer sensor dtype count limit,
             {| w_cam := cam1; w_bufs := <[b := buf1]> bufs1;
                w_log := log1 ++ [EvSnapInto (Some b)] |},
             Yield meta)
        | (cam1, Raise e) =>
            (GenDone, {| w_cam := cam1; w_bufs := bufs1; w_log := log1 |},
             Raised e)
        end
    end
  else (GenDone, wd, StopIteration).

(** The loop of the branch with an ROI, likewise. *)
Definition roi_loop (cls : CameraClass) (get_buffer : buffer_provider)
    (sensor : list Z) (dtype : DType) (x y w h : Z) (full_buf : ndarray px)
    (count limit : Z) (wd : world) : generator * world * pull :=
  if count <? limit then
    let roi_shape := shape cls (w_cam wd) in
    let '(bufs1, b) := get_buffer roi_shape dtype (w_bufs wd) in
    let log1 := w_log wd ++ [EvGetBuffer roi_shape b] in
    match bufs1 !! b with
    | None =>
        (GenDone, {| w_cam := w_cam wd; w_bufs := bufs1; w_log := log1 |},
         Raised not_a_buffer)
    | Some out =>
        match snap cls (w_cam wd) full_buf with
        | (cam1, Raise e) =>
            (GenDone, {| w_cam := cam1; w_bufs := bufs1; w_log := log1 |},
             Raised e)
        | (cam1, Ok (meta, full1)) =>
            let log2 := log1 ++ [EvSnapInto None] in
            match crop full1 y h x w with
            | Raise e =>
                (GenDone,
                 {| w_cam := cam1; w_bufs := bufs1; w_log := log2 |},
                 Raised e)
            | Ok region =>
                match assign_all out region with
                | Raise e =>
                    (GenDone,
                     {| w_cam := cam1; w_bufs := bufs1; w_log := log2 |},
                     Raised e)
                | Ok out1 =>
                    (GenRoi get_buffer sensor dtype x y w h full1 count limit,
                     {| w_cam := cam1; w_bufs := <[b := out1]> bufs1;
                        w_log := log2 ++ [EvCropInto y h x w b] |},
                     Yield meta)
                end
            end
        end
    end
  else (GenDone, wd, StopIteration).

(** [next(it)]: run the generator up to its next [yield]. *)
Definition next (cls : CameraClass) (g : generator) (wd : world)
  : generator * world * pull :=
  match g with
  | GenCreated n get_buffer =>
      let sensor := sensor_shape cls (w_cam wd) in
      let roi := _roi (w_cam wd) in
      let dtype := cls_dtype cls (cam_dev (w_cam wd)) in
      let limit := match n with Some k => k | None => 2 ^ 63 end in
      match roi with
      | None => noroi_loop cls get_buffer sensor dtype 0 limit wd
      | Some (x, y, w, h) =>
          match np_empty sensor with
          | Raise e => (GenDone, wd, Raised e)
          | Ok full_buf =>
              roi_loop cls get_buffer sensor dtype x y w h full_buf 0 limit
                (log_event wd (EvEmpty sensor))
          end
      end
  | GenNoRoi get_buffer sensor dtype count limit =>
      noroi_loop cls get_buffer sensor dtype (count + 1) limit wd
  | GenRoi get_buffer sensor dtype x y w h full_buf count limit =>
      roi_loop cls get_buffer sensor dtype x y w h full_buf (count + 1) limit
        wd
  | GenDone => (GenDone, wd, StopIteration)
  end.

(** The results of the first [k] pulls, and where they leave things. *)
Fixpoint pulls (cls : CameraClass) (k : nat) (g : generator) (wd : world)
  : generator * world * list pull :=
  match k with
  | O => (g, wd, [])
  | S k' =>
      let '(g1, wd1, r) := next cls g wd in
      let '(g2, wd2, rs) := pulls cls k' g1 wd1 in
      (g2, wd2, r :: rs)
  end.

(** *** Conditions used to state the properties of the acquisition loop *)

(** The ROI invariant of the data model, for a sensor of [H] rows and [W]
    columns. *)
Definition roi_within (r : ROI) (H W : Z) : Prop :=
  let '(x, y, w, h) := r in
  0 <= x /\ 0 <= y /\ 0 < w /\ 0 < h /\ x + w <= W /\ y + h <= H.

(** The stored ROI, if any, lies within a two-dimensional sensor. *)
Definition roi_fits (cls : CameraClass) (cam : camera) : Prop :=
  match _roi cam with
  | None => True
  | Some r => exists H W, sensor_shape cls cam = [H; W] /\ roi_within r H W
  end.

(** A provider that hands out an array of the shape it is asked for. *)
Definition good_provider (get_buffer : buffer_provider) : Prop :=
  forall shape dt bufs,
    exists a,
      (get_buffer shape dt bufs).1 !! (get_buffer shape dt bufs).2 = Some a
      /\ arr_shape a = shape.

(** Local variables of a generator's frame. *)
Definition gen_limit (g : generator) : Z :=
  match g with
  | GenCreated n _ => match n with Some k => k | None => 2 ^ 63 end
  | GenNoRoi _ _ _ _ limit => limit
  | GenRoi _ _ _ _ _ _ _ _ _ limit => limit
  | GenDone => 0
  end.

Definition gen_provider (g : generator) : option buffer_provider :=
  match g with
  | GenCreated _ gb => Some gb
  | GenNoRoi gb _ _ _ _ => Some gb
  | GenRoi gb _ _ _ _ _ _ _ _ _ => Some gb
  | GenDone => None
  end.

(** [sensor] and [dtype] as the generator has them, or will read them on
    its first pull. *)
Definition gen_sensor (cls : CameraClass) (g : generator) (wd : world)
  : list Z :=
  match g with
  | GenNoRoi _ sensor _ _ _ => sensor
  | GenRoi _ sensor _ _ _ _ _ _ _ _ => sensor
  | _ => sensor_shape cls (w_cam wd)
  end.

Definition gen_dtype (cls : CameraClass) (g : generator) (wd : world)
  : DType :=
  match g with
  | GenNoRoi _ _ dtype _ _ => dtype
  | GenRoi _ _ dtype _ _ _ _ _ _ _ => dtype
  | _ => cls_dtype cls (cam_dev (w_cam wd))
  end.

(** The scratch buffer the generator holds on to. *)
Definition gen_scratch (g : generator) : option (ndarray px) :=
  match g with
  | GenRoi _ _ _ _ _ _ _ full_buf _ _ => Some full_buf
  | _ => None
  end.

(** The ROI the generator captured is the ROI the camera has now, and the
    scratch buffer has the captured sensor shape.  This holds of every
    generator on its first pull and is kept by [next] as long as the ROI is
    not changed while the sequence runs. *)
Definition in_sync (g : generator) (wd : world) : Prop :=
  match g with
  | GenCreated _ _ => True
  | GenNoRoi _ _ _ _ _ => _roi (w_cam wd) = None
  | GenRoi _ sensor _ x y w h full_buf _ _ =>
      _roi (w_cam wd) = Some (x, y, w, h) /\ arr_shape full_buf = sensor
  | GenDone => True
  end.

(** The generator is live, has yielded [c] items, and every further frame
    can be acquired: the provider is good and an ROI, if any, lies within a
    two-dimensional sensor. *)
Definition running (cls : CameraClass) (g : generator) (wd : world) (c : Z)
  : Prop :=
  match g with
  | GenCreated _ gb => c = 0 /\ good_provider gb /\ roi_fits cls (w_cam wd)
  | GenNoRoi gb _ _ count _ => c = count + 1 /\ good_provider gb
  | GenRoi gb sensor _ x y w h full_buf count _ =>
      c = count + 1 /\ good_provider gb
      /\ _roi (w_cam wd) = Some (x, y, w, h)
      /\ arr_shape full_buf = sensor
      /\ exists H W, sensor = [H; W] /\ roi_within (x, y, w, h) H W
  | GenDone => False
  end.

(** The stored ROI, if any, lies within the rows and columns of the sensor
    shape the generator works with, which may have further axes. *)
Definition roi_in_sensor (cls : CameraClass) (g : generator) (wd : world)
  : Prop :=
  match _roi (w_cam wd) with
  | None => True
  | Some r =>
      exists H W rest,
        gen_sensor cls g wd = H :: W :: rest /\ roi_within r H W
  end.

(** Result of the pull that follows [k] earlier ones. *)
Definition nth_pull (cls : CameraClass) (k : nat) (g : generator)
    (wd : world) : pull :=
  let '(g1, wd1, _) := pulls cls k g wd in
  (next cls g1 wd1).2.

(** The scratch buffer a frame works with: the one the generator holds, or
    on the first pull the one it allocates. *)
Definition frame_scratch (cls : CameraClass) (g : generator) (wd : world)
  : res (ndarray px) :=
  match g with
  | GenRoi _ _ _ _ _ _ _ full_buf _ _ => Ok full_buf
  | _ => np_empty (sensor_shape cls (w_cam wd))
  end.

(** What one frame of the loop without ROI does: the provider is asked for
    a buffer of the sensor shape, [snap] fills that very buffer, and nothing
    else is allocated or copied. *)
Definition frame_direct (cls : CameraClass) (f : snap_fn) (g : generator)
    (wd : world) (g' : generator) (wd' : world) (meta : Meta) : Prop :=
  exists gb bufs1 b buf,
    gen_provider g = Some gb
    /\ gb (gen_sensor cls g wd) (gen_dtype cls g wd) (w_bufs wd) = (bufs1, b)
    /\ bufs1 !! b = Some buf
    /\ arr_shape buf = gen_sensor cls g wd
    /\ (f (cam_dev (w_cam wd)) buf).1 = (cam_dev (w_cam wd'), meta)
    /\ w_bufs wd'
       = <[b := {| arr_shape := arr_shape buf;
                   arr_at := (f (cam_dev (w_cam wd)) buf).2 |}]> bufs1
    /\ gen_scratch g' = None
    /\ w_log wd'
       = w_log wd ++ [EvGetBuffer (gen_sensor cls g wd) b;
                      EvSnapInto (Some b)].

(** What one frame of the loop with the ROI [(x, y, w, h)] does: the
    provider is asked for a buffer of shape [(h, w)], [snap] fills the
    sensor-shaped scratch buffer, which the generator keeps, and the provided
    buffer receives exactly rows [y .. y + h) and columns [x .. x + w) of
    it: its element at (r, c) is the element of the scratch buffer at
    (y + r, x + c), and at 0 along any further axis of the sensor. *)
Definition frame_cropped (cls : CameraClass) (f : snap_fn) (g : generator)
    (wd : world) (g' : generator) (wd' : world) (meta : Meta)
    (x y w h : Z) : Prop :=
  exists gb bufs1 b out scratch out',
    gen_provider g = Some gb
    /\ gb [h; w] (gen_dtype cls g wd) (w_bufs wd) = (bufs1, b)
    /\ bufs1 !! b = Some out
    /\ frame_scratch cls g wd = Ok scratch
    /\ arr_shape scratch = gen_sensor cls g wd
    /\ (f (cam_dev (w_cam wd)) scratch).1 = (cam_dev (w_cam wd'), meta)
    /\ gen_scratch g'
       = Some {| arr_shape := arr_shape scratch;
                 arr_at := (f (cam_dev (w_cam wd)) scratch).2 |}
    /\ w_bufs wd' = <[b := out']> bufs1
    /\ arr_shape out' = [h; w]
    /\ (forall r c,
          0 <= r < h -> 0 <= c < w ->
          arr_at out' [r; c]
          = (f (cam_dev (w_cam wd)) scratch).2
              (y + r :: x + c
                 :: replicate (length (gen_sensor cls g wd) - 2) 0))
    /\ w_log wd'
       = w_log wd
           ++ match gen_scratch g with
              | None => [EvEmpty (gen_sensor cls g wd)]
              | Some _ => []
              end
           ++ [EvGetBuffer [h; w] b; EvSnapInto None; EvCropInto y h x w b].

(** *** Sequences of ROI calls, the registry in closed form, and the log *)

(** A call a user makes on the ROI of a camera. *)
Inductive roi_call :=
| SetRoi (x y width height : Z)
| ClearRoi.

(** The camera after the call, whether the call succeeded or raised. *)
Definition do_roi_call (cls : CameraClass) (cam : camera) (c : roi_call)
  : camera :=
  match c with
  | SetRoi x y width height => (set_roi cls cam x y width height).1
  | ClearRoi => clear_roi cam
  end.

Definition do_roi_calls (cls : CameraClass) (cam : camera)
    (cs : list roi_call) : camera :=
  foldl (do_roi_call cls) cam cs.

(** The stored ROI, if any, lies within a sensor of [H] rows and [W]
    columns. *)
Definition roi_valid (cam : camera) (H W : Z) : Prop :=
  match _roi cam with
  | None => True
  | Some r => roi_within r H W
  end.

(** A sensor shape on which no ROI has room: fewer than two entries, or a
    height or width that is not positive. *)
Definition no_room (sensor : list Z) : Prop :=
  match sensor with
  | H :: W :: _ => H <= 0 \/ W <= 0
  | _ => True
  end.

(** The registry entry an item of [STANDARD_PROPERTIES] gives rise to: the
    descriptor built from the class's methods when the class has the
    getter, nothing otherwise. *)
Definition standard_descriptor (cls : CameraClass)
    (item : prop_key * (string * prop_type))
  : option (prop_key * PropertyDescriptor) :=
  match class_getattr cls ("get_" +:+ item.2.1) with
  | Some fget =>
      Some (item.1,
            {| prop_name := item.1;
               property_type := item.2.2;
               getter := fget;
               setter := class_getattr cls ("set_" +:+ item.2.1);
               sequence_loader :=
                 class_getattr cls ("load_" +:+ item.2.1 +:+ "_sequence");
               sequence_starter :=
                 class_getattr cls ("start_" +:+ item.2.1 +:+ "_sequence");
               sequence_stopper :=
                 class_getattr cls ("stop_" +:+ item.2.1 +:+ "_sequence") |})
  | None => None
  end.

(** Kinds of buffer operations in the log. *)
Definition is_request (e : event) : bool :=
  match e with EvGetBuffer _ _ => true | _ => false end.

Definition is_snap (e : event) : bool :=
  match e with EvSnapInto _ => true | _ => false end.



(** How many events of a kind a log holds. *)
Definition count_events (p : event -> bool) (log : list event) : Z :=
  Z.of_nat (length (List.filter p log)).



End Defs.

End Camera.

(** ** Concrete cameras *)

Module Demo.
Import Py Camera.

(** A camera state counting the frames taken; metadata is the frame number
    and a pixel is a number. *)
Definition demo_snap : @snap_fn Z Z Z :=
  fun d _ => (d + 1, d, fun idx => 100 * d + 10 * nth 0 idx 0 + nth 1 idx 0).

Definition demo_exposure : @callable Z := fun d _ => (d, Ok PNone).

(** A grayscale camera of 4 rows by 6 columns that overrides [snap] only. *)
Definition SnapOnly : @CameraClass Z Z unit Z :=
  {| cls_name := "SnapOnly";
     cls_get_exposure := demo_exposure;
     cls_set_exposure := demo_exposure;
     cls_sensor_shape := fun _ => [4; 6];
     cls_dtype := fun _ => tt;
     cls_snap := Some demo_snap;
     cls_start_sequence := None;
     cls_dict := ∅ |}.

(** A class that overrides neither [snap] nor [start_sequence]. *)
Definition Neither : @CameraClass Z Z unit Z :=
  {| cls_name := "Neither";
     cls_get_exposure := demo_exposure;
     cls_set_exposure := demo_exposure;
     cls_sensor_shape := fun _ => [4; 6];
     cls_dtype := fun _ => tt;
     cls_snap := None;
     cls_start_sequence := None;
     cls_dict := ∅ |}.

(** A class that overrides [start_sequence] only, with an empty sequence. *)
Definition SequenceOnly : @CameraClass Z Z unit Z :=
  {| cls_name := "SequenceOnly";
     cls_get_exposure := demo_exposure;
     cls_set_exposure := demo_exposure;
     cls_sensor_shape := fun _ => [4; 6];
     cls_dtype := fun _ => tt;
     cls_snap := None;
     cls_start_sequence :=
       Some {| seq_state := unit;
               seq_start := fun _ _ => tt;
               seq_next := fun s wd => (s, wd, StopIteration) |};
     cls_dict := ∅ |}.

(** A class that defines [get_binning] (returning 2) and no [set_binning]. *)
Definition FixedBinning : @CameraClass Z Z unit Z :=
  {| cls_name := "FixedBinning";
     cls_get_exposure := demo_exposure;
     cls_set_exposure := demo_exposure;
     cls_sensor_shape := fun _ => [4; 6];
     cls_dtype := fun _ => tt;
     cls_snap := Some demo_snap;
     cls_start_sequence := None;
     cls_dict := {[ "get_binning" := (fun d _ => (d, Ok (PInt 2))) ]} |}.

(** A provider with a single buffer, slot 0, reallocated to the requested
    shape on every call. *)
Definition one_slot : @buffer_provider unit Z :=
  fun shape _ bufs =>
    (<[0%nat := {| arr_shape := shape; arr_at := fun _ => 0 |}]> bufs,
     0%nat).

Definition cam0 : @camera Z := Device_init 0.

Definition world0 : @world Z Z :=
  {| w_cam := cam0; w_bufs := ∅; w_log := [] |}.

(** The same with the ROI [(x, y, w, h) = (1, 2, 3, 2)] set. *)
Definition cam_roi : @camera Z := with_roi cam0 (Some (1, 2, 3, 2)).

Definition world_roi : @world Z Z :=
  {| w_cam := cam_roi; w_bufs := ∅; w_log := [] |}.

(** A line sensor, whose shape has a single entry. *)
Definition LineScan : @CameraClass Z Z unit Z :=
  {| cls_name := "LineScan";
     cls_get_exposure := demo_exposure;
     cls_set_exposure := demo_exposure;
     cls_sensor_shape := fun _ => [512];
     cls_dtype := fun _ => tt;
     cls_snap := Some demo_snap;
     cls_start_sequence := None;
     cls_dict := ∅ |}.

(** A colour camera of 4 rows, 6 columns and 3 channels that overrides
    [snap] only. *)
Definition Colour : @CameraClass Z Z unit Z :=
  {| cls_name := "Colour";
     cls_get_exposure := demo_exposure;
     cls_set_exposure := demo_exposure;
     cls_sensor_shape := fun _ => [4; 6; 3];
     cls_dtype := fun _ => tt;
     cls_snap := Some demo_snap;
     cls_start_sequence := None;
     cls_dict := ∅ |}.

(** A colour camera that overrides [start_sequence] only, with an empty
    sequence. *)
Definition ColourSequenceOnly : @CameraClass Z Z unit Z :=
  {| cls_name := "ColourSequenceOnly";
     cls_get_exposure := demo_exposure;
     cls_set_exposure := demo_exposure;
     cls_sensor_shape := fun _ => [4; 6; 3];
     cls_dtype := fun _ => tt;
     cls_snap := None;
     cls_start_sequence :=
       Some {| seq_state := unit;
               seq_start := fun _ _ => tt;
               seq_next := fun s wd => (s, wd, StopIteration) |};
     cls_dict := ∅ |}.

(** Calls on the ROI, two of which are refused. *)
Definition roi_calls : list roi_call :=
  [SetRoi 1 2 3 2; SetRoi 5 0 3 2; ClearRoi; SetRoi 0 0 6 4; SetRoi (-1) 0 1 1].

End Demo.

(** ** Discrete-state devices *)

Module StateDevice.
Import Py.

(** [SimStateDevice], the discrete-state device that
    tests/00_unicore/test_config_groups.py defines: the current state, its
    label, and the [_state_to_label] dict of the [StateDevice] base. *)
Record SimStateDevice := {
  _current_state : Z;
  _current_label : option string;
  _state_to_label : gmap Z string
}.

(** [SimStateDevice.__init__(label, state_dict)] *)
Definition SimStateDevice_init (state_dict : gmap Z string) : SimStateDevice :=
  {| _current_state := 0;
     _current_label := state_dict !! 0;
     _state_to_label := state_dict |}.

(** The argument of [SimStateDevice.set_state]: [int | str]. *)
Inductive position :=
| PosInt (i : Z)
| PosStr (s : string).

(** [SimStateDevice.set_state(position)] *)
Definition SimStateDevice_set_state (d : SimStateDevice) (p : position)
  : SimStateDevice * res unit :=
  match match p with PosInt i => Some i | PosStr s => parse_int s end with
  | None => (d, Raise invalid_literal)
  | Some i =>
      ({| _current_state := i;
          _current_label := _state_to_label d !! i;
          _state_to_label := _state_to_label d |},
       Ok tt)
  end.

(** [SimStateDevice.get_state()] *)
Definition get_state (d : SimStateDevice) : Z := _current_state d.

(** Modelled from the spec: the two-way mapping between index and label
    of the [StateDevice] base (not part of these sources), read from index
    to label. *)
Definition label_of (d : SimStateDevice) (i : Z) : option string :=
  _state_to_label d !! i.

(** Modelled from the spec: the mapping of the [StateDevice] base read
    from label to index. *)
Definition index_of (d : SimStateDevice) (l : string) : option Z :=
  (fun r => r.2.1)
    <$> list_find (fun kv => kv.2 = l) (map_to_list (_state_to_label d)).

(** Modelled from the spec: [get_label()] of the [StateDevice] base, the
    current label. *)
Definition get_label (d : SimStateDevice) : option string :=
  _current_label d.

(** Modelled from the spec: [InvalidStateError] of the error taxonomy,
    section 7, with the Python class and message the tests expect. *)
Definition InvalidStateError (i : Z) : exn :=
  Exn ValueError ("Position " +:+ pretty i +:+ " is not a valid state").

(** Modelled from the spec: [UndefinedLabelError], likewise. *)
Definition UndefinedLabelError (l : string) : exn :=
  Exn RuntimeError ("Label not defined: '" +:+ l +:+ "'").

(** Modelled from the spec: [PropertyNotFound], [PropertyNotSettable] and
    the failure of type coercion; the sources do not fix their Python
    classes. *)
Definition PropertyNotFound (name : string) : exn :=
  Exn Exception_ ("Property not found: " +:+ name).

(** Modelled from the spec: see [PropertyNotFound]. *)
Definition PropertyNotSettable (name : string) : exn :=
  Exn Exception_ ("Property is read-only: " +:+ name).

(** Modelled from the spec: see [PropertyNotFound]. *)
Definition CoercionError (name value : string) : exn :=
  Exn Exception_ ("Invalid value for " +:+ name +:+ ": " +:+ value).

(** The argument of the contract's [set_state]: an index or a label. *)
Inductive state_arg :=
| ByIndex (i : Z)
| ByLabel (l : string).

(** Modelled from the spec: [set_state(index | label)] of the discrete-state
    contract, section 4.2 ([StateDevice] is not part of these sources): an
    index outside the mapping fails with [InvalidStateError], an
    unrecognised label with [UndefinedLabelError], a label is resolved to
    its index, and the index path is the device's own [set_state]. *)
Definition set_state (d : SimStateDevice) (a : state_arg)
  : SimStateDevice * res unit :=
  match a with
  | ByIndex i =>
      match label_of d i with
      | None => (d, Raise (InvalidStateError i))
      | Some _ => SimStateDevice_set_state d (PosInt i)
      end
  | ByLabel l =>
      match index_of d l with
      | None => (d, Raise (UndefinedLabelError l))
      | Some i => SimStateDevice_set_state d (PosInt i)
      end
  end.

(** Modelled from the spec: a software device of the directory, section
    3: a discrete state and further stored properties, each with its value
    and whether it has a setter. *)
Record device := {
  dev_state : SimStateDevice;
  dev_extra : list (string * (pyval * bool))
}.

(** Modelled from the spec: the registry's [get(name)], section 4.1, with
    "State" and "Label" as views over the discrete state. *)
Definition get_property_value (d : device) (name : string) : res pyval :=
  if decide (name = "State") then Ok (PInt (get_state (dev_state d)))
  else if decide (name = "Label")
  then Ok (match get_label (dev_state d) with
           | Some l => PStr l
           | None => PNone
           end)
  else match dict_get name (dev_extra d) with
       | Some (v, _) => Ok v
       | None => Raise (PropertyNotFound name)
       end.

(** Modelled from the spec: coercion of the wire string to the type of the
    stored value, done once at the set boundary. *)
Definition coerce (old : pyval) (value : string) : option pyval :=
  match old with
  | PInt _ => PInt <$> parse_int value
  | PStr _ => Some (PStr value)
  | PNone => Some (PStr value)
  end.

(** Modelled from the spec: the registry's [set(name, value)], section 4.1:
    setting "State" or "Label" goes through [set_state]; any other property
    needs a setter and a value of its type. *)
Definition set_property_value (d : device) (name value : string)
  : device * res unit :=
  if decide (name = "State")
  then match parse_int value with
       | None => (d, Raise (CoercionError name value))
       | Some i =>
           let '(s, r) := set_state (dev_state d) (ByIndex i) in
           ({| dev_state := s; dev_extra := dev_extra d |}, r)
       end
  else if decide (name = "Label")
  then let '(s, r) := set_state (dev_state d) (ByLabel value) in
       ({| dev_state := s; dev_extra := dev_extra d |}, r)
  else match dict_get name (dev_extra d) with
       | None => (d, Raise (PropertyNotFound name))
       | Some (_, false) => (d, Raise (PropertyNotSettable name))
       | Some (old, true) =>
           match coerce old value with
           | None => (d, Raise (CoercionError name value))
           | Some v =>
               ({| dev_state := dev_state d;
                   dev_extra := dict_set name (v, true) (dev_extra d) |},
                Ok tt)
           end
       end.

(** The bidirectional sync invariant of the data model. *)
Definition synced (d : SimStateDevice) : Prop :=
  label_of d (get_state d) = get_label d.

(** The device after a sequence of [SimStateDevice.set_state] calls, each
    of which may have raised. *)
Definition SimStateDevice_set_states (d : SimStateDevice)
    (ps : list position) : SimStateDevice :=
  foldl (fun d p => (SimStateDevice_set_state d p).1) d ps.

(** [ComplexStateDevice] of test_multiple_properties_per_device_in_config:
    the attributes of [SimStateDevice] and [_intensity]. *)
Record ComplexStateDevice := {
  csd_state : SimStateDevice;
  _intensity : Z
}.

(** [ComplexStateDevice.__init__(label, state_dict)] *)
Definition ComplexStateDevice_init (state_dict : gmap Z string)
  : ComplexStateDevice :=
  {| csd_state := SimStateDevice_init state_dict; _intensity := 50 |}.

(** [int(value)] for the [int | str] a property value is. *)
Definition py_int (v : pyval) : res Z :=
  match v with
  | PInt z => Ok z
  | PStr s =>
      match parse_int s with
      | Some z => Ok z
      | None => Raise invalid_literal
      end
  | PNone =>
      Raise (Exn TypeError
               "int() argument must be a string, a bytes-like object or a real number, not 'NoneType'")
  end.

Section Complex.
(** The methods of the base class that [super()] reaches; the [Device]
    base is not part of these sources. *)
Context (super_get_property_names : ComplexStateDevice -> list string)
        (super_get_property_value : ComplexStateDevice -> string -> res pyval)
        (super_set_property_value :
           ComplexStateDevice -> string -> pyval
           -> ComplexStateDevice * res unit).

(** [ComplexStateDevice.get_property_names()] *)
Definition ComplexStateDevice_get_property_names (d : ComplexStateDevice)
  : list string :=
  super_get_property_names d ++ ["Intensity"].

(** [ComplexStateDevice.get_property_value(prop_name)] *)
Definition ComplexStateDevice_get_property_value (d : ComplexStateDevice)
    (prop_name : string) : res pyval :=
  if decide (prop_name = "Intensity") then Ok (PInt (_intensity d))
  else super_get_property_value d prop_name.

(** [ComplexStateDevice.set_property_value(prop_name, value)] *)
Definition ComplexStateDevice_set_property_value (d : ComplexStateDevice)
    (prop_name : string) (value : pyval) : ComplexStateDevice * res unit :=
  if decide (prop_name = "Intensity")
  then match py_int value with
       | Ok z => ({| csd_state := csd_state d; _intensity := z |}, Ok tt)
       | Raise e => (d, Raise e)
       end
  else super_set_property_value d prop_name value.

End Complex.

End StateDevice.

(** ** The configuration store *)

Module ConfigStore.
Import Py.

(** Modelled from the spec: a setting, section 3: device label, property
    name, value as a string. *)
Definition Setting : Type := string * string * string.

(** Modelled from the spec: a config holds its settings in definition
    order. *)
Definition Config : Type := list Setting.

(** Modelled from the spec: a group holds its configs, by name, in
    definition order. *)
Definition ConfigGroup : Type := list (string * Config).

(** Modelled from the spec: the store holds the groups, by name. *)
Definition Store : Type := list (string * ConfigGroup).

(** Modelled from the spec: [GroupNotFound] of the error taxonomy; the
    sources do not fix its Python class. *)
Definition GroupNotFound (g : string) : exn :=
  Exn Exception_ ("Group not found: " +:+ g).

(** Modelled from the spec: [ConfigNotFound], likewise. *)
Definition ConfigNotFound (g c : string) : exn :=
  Exn Exception_ ("Config not found: " +:+ g +:+ "/" +:+ c).

(** Modelled from the spec: adding a setting to a config, section 3: a
    setting for a (device, property) pair already present takes the place
    of the earlier one, any other is appended. *)
Fixpoint put_setting (dev prop value : string) (c : Config) : Config :=
  match c with
  | [] => [(dev, prop, value)]
  | (d, p, v) :: c' =>
      if decide ((d, p) = (dev, prop)) then (dev, prop, value) :: c'
      else (d, p, v) :: put_setting dev prop value c'
  end.

(** Modelled from the spec: [define_group(name)] of the Configuration
    Store, section 4.5 (the store lives in the [UniMMCore] class, which is
    not part of these sources); defining an existing group changes
    nothing. *)
Definition define_group (g : string) (st : Store) : Store :=
  match dict_get g st with
  | Some _ => st
  | None => dict_set g [] st
  end.

(** The configs of a group, none if the group is not defined. *)
Definition group_of (g : string) (st : Store) : ConfigGroup :=
  default [] (dict_get g st).

(** The settings of a config, none if it is not defined. *)
Definition config_of (g c : string) (st : Store) : Config :=
  default [] (dict_get c (group_of g st)).

(** Modelled from the spec: [define_config(group, config)], the
    two-argument call, which creates the group and the config as needed. *)
Definition define_empty_config (g c : string) (st : Store) : Store :=
  dict_set g (dict_set c (config_of g c st) (group_of g st)) st.

(** Modelled from the spec:
    [define_config(group, config, device, property, value)]. *)
Definition define_config (g c dev prop value : string) (st : Store) : Store :=
  dict_set g
    (dict_set c (put_setting dev prop value (config_of g c st))
       (group_of g st))
    st.

(** Renaming a key, in place. *)
Fixpoint dict_rename {V} (old new : string) (d : list (string * V))
  : list (string * V) :=
  match d with
  | [] => []
  | (k, v) :: d' =>
      if decide (k = old) then (new, v) :: d'
      else (k, v) :: dict_rename old new d'
  end.

(** Modelled from the spec: [rename_group]; the renamed group takes the
    place of a group that already has the new name. *)
Definition rename_group (old new : string) (st : Store) : Store * res unit :=
  match dict_get old st with
  | None => (st, Raise (GroupNotFound old))
  | Some _ =>
      if decide (old = new) then (st, Ok tt)
      else (dict_rename old new (dict_del new st), Ok tt)
  end.

(** Modelled from the spec: [delete_group], which takes the configs of
    the group with it. *)
Definition delete_group (g : string) (st : Store) : Store * res unit :=
  match dict_get g st with
  | None => (st, Raise (GroupNotFound g))
  | Some _ => (dict_del g st, Ok tt)
  end.

(** Modelled from the spec: [rename_config]. *)
Definition rename_config (g old new : string) (st : Store)
  : Store * res unit :=
  match dict_get g st with
  | None => (st, Raise (GroupNotFound g))
  | Some grp =>
      match dict_get old grp with
      | None => (st, Raise (ConfigNotFound g old))
      | Some _ =>
          if decide (old = new) then (st, Ok tt)
          else (dict_set g (dict_rename old new (dict_del new grp)) st, Ok tt)
      end
  end.

(** Modelled from the spec: [delete_config]. *)
Definition delete_config (g c : string) (st : Store) : Store * res unit :=
  match dict_get g st with
  | None => (st, Raise (GroupNotFound g))
  | Some grp =>
      match dict_get c grp with
      | None => (st, Raise (ConfigNotFound g c))
      | Some _ => (dict_set g (dict_del c grp) st, Ok tt)
      end
  end.

(** Modelled from the spec: [config_exists(group, config)]. *)
Definition config_exists (g c : string) (st : Store) : bool :=
  match dict_get g st with
  | Some grp => bool_decide (is_Some (dict_get c grp))
  | None => false
  end.

(** Modelled from the spec: [get_config_data(group, config)], the
    settings in order. *)
Definition get_config_data (g c : string) (st : Store) : res (list Setting) :=
  match dict_get g st with
  | None => Raise (GroupNotFound g)
  | Some grp =>
      match dict_get c grp with
      | None => Raise (ConfigNotFound g c)
      | Some cfg => Ok cfg
      end
  end.

(** The mutations of the store. *)
Inductive op :=
| DefineGroup (g : string)
| DefineEmptyConfig (g c : string)
| DefineConfig (g c dev prop value : string)
| RenameGroup (old new : string)
| DeleteGroup (g : string)
| RenameConfig (g old new : string)
| DeleteConfig (g c : string).

Definition run (o : op) (st : Store) : Store :=
  match o with
  | DefineGroup g => define_group g st
  | DefineEmptyConfig g c => define_empty_config g c st
  | DefineConfig g c dev prop value => define_config g c dev prop value st
  | RenameGroup old new => (rename_group old new st).1
  | DeleteGroup g => (delete_group g st).1
  | RenameConfig g old new => (rename_config g old new st).1
  | DeleteConfig g c => (delete_config g c st).1
  end.

(** The store after a sequence of mutations, starting empty. *)
Definition run_all (ops : list op) : Store := foldl (fun st o => run o st) [] ops.

(** The (device, property) pairs of a config, in order. *)
Definition pairs_of (c : Config) : list (string * string) :=
  map (fun s => (s.1.1, s.1.2)) c.

(** No two settings of any config share their (device, property) pair. *)
Definition deduplicated (st : Store) : Prop :=
  Forall (fun g => Forall (fun c => NoDup (pairs_of c.2)) g.2) st.

End ConfigStore.

(** ** The config application and merge engine *)

Module Merge.
Import Py StateDevice ConfigStore.

Section Engine.
Context {E : Type}.

(** Modelled from the spec: the native engine, an opaque service with a
    state of its own, through the interface of section 6. *)
Record NativeEngine := {
  list_native_groups : E -> list string;
  list_native_configs : E -> string -> list string;
  get_native_config_data : E -> string -> string -> list Setting;
  apply_native_config : E -> string -> string -> E * res unit;
  get_native_property : E -> string -> string -> res string;
  set_native_property : E -> string -> string -> string -> E * res unit
}.

Context (eng : NativeEngine).

(** Modelled from the spec: the core, section 2: the directory of software
    devices, the software configuration store, and the native engine. *)
Record core := {
  devices : list (string * device);
  store : Store;
  engine : E
}.

(** Modelled from the spec: the directory's property routing, section 4.4: a
    label of the directory is served by its software device, any other by
    the native engine. *)
Definition get_property (c : core) (dev prop : string) : res pyval :=
  match dict_get dev (devices c) with
  | Some d => get_property_value d prop
  | None => res_map PStr (get_native_property eng (engine c) dev prop)
  end.

(** Modelled from the spec: the property-set path through the directory. *)
Definition set_property (c : core) (dev prop value : string)
  : core * res unit :=
  match dict_get dev (devices c) with
  | Some d =>
      let '(d', r) := set_property_value d prop value in
      ({| devices := dict_set dev d' (devices c);
          store := store c;
          engine := engine c |}, r)
  | None =>
      let '(e', r) := set_native_property eng (engine c) dev prop value in
      ({| devices := devices c; store := store c; engine := e' |}, r)
  end.

(** Modelled from the spec: settings are applied in order; the first
    failure ends the apply and what was applied stays applied. *)
Fixpoint apply_settings (c : core) (l : list Setting) : core * res unit :=
  match l with
  | [] => (c, Ok tt)
  | (d, p, v) :: l' =>
      match set_property c d p v with
      | (c', Ok _) => apply_settings c' l'
      | (c', Raise e) => (c', Raise e)
      end
  end.

(** Modelled from the spec: [set_config(group, config)], section 4.6: the
    native engine applies its own settings for the pair when it knows it,
    and the settings of the software store go through the property-set
    path. *)
Definition set_config (c : core) (g cfg : string) : core * res unit :=
  let soft := dict_get cfg (group_of g (store c)) in
  if bool_decide (cfg ∈ list_native_configs eng (engine c) g)
  then
    let '(e', r) := apply_native_config eng (engine c) g cfg in
    let c1 := {| devices := devices c; store := store c; engine := e' |} in
    match r with
    | Raise e => (c1, Raise e)
    | Ok _ => apply_settings c1 (default [] soft)
    end
  else
    match soft with
    | None => (c, Raise (ConfigNotFound g cfg))
    | Some l => apply_settings c l
    end.

(** Modelled from the spec: the type-aware comparison of a live value with
    a declared one, section 4.6: an integer matches the decimal strings that
    denote it, a string matches itself. *)
Definition values_match (live : pyval) (declared : string) : bool :=
  match live with
  | PInt z => bool_decide (parse_int declared = Some z)
  | PStr s => bool_decide (s = declared)
  | PNone => false
  end.

(** Modelled from the spec: a setting matches when the live value of its
    (device, property) can be read and matches the declared value. *)
Definition setting_matches (c : core) (s : Setting) : bool :=
  match get_property c s.1.1 s.1.2 with
  | Ok live => values_match live s.2
  | Raise _ => false
  end.

(** Modelled from the spec: a config is current when every setting it
    declares matches. *)
Definition config_matches (c : core) (cfg : Config) : bool :=
  forallb (setting_matches c) cfg.

(** Modelled from the spec: the configs of a group in definition order,
    those of the software store first, then those of the native engine
    (section 9). *)
Definition all_configs (c : core) (g : string) : list (string * Config) :=
  group_of g (store c)
    ++ map (fun n => (n, get_native_config_data eng (engine c) g n))
         (list_native_configs eng (engine c) g).

(** Modelled from the spec: [get_current_config(group)], section 4.6: the
    first config in definition order that is current, or [None] for "no
    current config". *)
Definition get_current_config (c : core) (g : string) : option string :=
  fst <$> List.find (fun e => config_matches c e.2) (all_configs c g).

(** Modelled from the spec: the answer of [get_config_group_state]: what
    the native engine reports, or the mapping device -> property -> live
    value. *)
Inductive group_state :=
| NativeState (l : list Setting)
| MappingState (m : list (string * list (string * pyval))).

(** Modelled from the spec: [NativeOnlyRequestFailure] of the error
    taxonomy, the [RuntimeError] of section 4.6. *)
Definition NativeOnlyRequestFailure (g : string) : exn :=
  Exn RuntimeError ("Group not defined in the native engine: " +:+ g).

(** Modelled from the spec: the native values of a list of (device,
    property) pairs. *)
Fixpoint read_native (e : E) (ps : list (string * string))
  : res (list Setting) :=
  match ps with
  | [] => Ok []
  | (d, p) :: ps' =>
      match get_native_property eng e d p with
      | Raise err => Raise err
      | Ok v => res_map (cons (d, p, v)) (read_native e ps')
      end
  end.

(** Modelled from the spec: the live values of a list of (device,
    property) pairs, as a mapping device -> property -> value. *)
Fixpoint read_live (c : core) (ps : list (string * string))
    (acc : list (string * list (string * pyval)))
  : res (list (string * list (string * pyval))) :=
  match ps with
  | [] => Ok acc
  | (d, p) :: ps' =>
      match get_property c d p with
      | Raise err => Raise err
      | Ok v =>
          read_live c ps'
            (dict_set d (dict_set p v (default [] (dict_get d acc))) acc)
      end
  end.

(** Modelled from the spec: the set of pairs referenced by any config of a
    group. *)
Definition referenced (cfgs : list (string * Config))
  : list (string * string) :=
  remove_dups (concat (map (fun e => pairs_of e.2) cfgs)).

(** Modelled from the spec: what the native engine alone answers for a
    group; a group it does not list is a native-only failure. *)
Definition native_group_state (e : E) (g : string) : res group_state :=
  if bool_decide (g ∈ list_native_groups eng e)
  then res_map NativeState
         (read_native e
            (referenced
               (map (fun n => (n, get_native_config_data eng e g n))
                  (list_native_configs eng e g))))
  else Raise (NativeOnlyRequestFailure g).

(** Modelled from the spec: [get_config_group_state(group, native)],
    section 4.6: a native request is answered by the native engine alone;
    otherwise a group of the software store is answered with the mapping of
    live values, and a group known only to the native engine by the
    engine. *)
Definition get_config_group_state (c : core) (g : string) (native : bool)
  : res group_state :=
  if native then native_group_state (engine c) g
  else
    match dict_get g (store c) with
    | Some grp => res_map MappingState (read_live c (referenced grp) [])
    | None =>
        if bool_decide (g ∈ list_native_groups eng (engine c))
        then native_group_state (engine c) g
        else Raise (GroupNotFound g)
    end.

(** Every software device of the directory satisfies the sync invariant. *)
Definition all_synced (c : core) : Prop :=
  Forall (fun e => synced (dev_state e.2)) (devices c).

End Engine.

(** A native engine that knows no group, no config and no device. *)
Definition no_engine : @NativeEngine unit :=
  {| list_native_groups := fun _ => [];
     list_native_configs := fun _ _ => [];
     get_native_config_data := fun _ _ _ => [];
     apply_native_config := fun e g c => (e, Raise (ConfigNotFound g c));
     get_native_property :=
       fun _ d p => Raise (Exn Exception_ ("No device: " +:+ d));
     set_native_property :=
       fun e d p v => (e, Raise (Exn Exception_ ("No device: " +:+ d))) |}.

(** A native engine whose state is the binning of its camera "Cam".  It
    lists one group, "Camera", with the configs "HighRes" (binning 1) and
    "Fast" (binning 2). *)
Definition camera_engine : @NativeEngine string :=
  {| list_native_groups := fun _ => ["Camera"];
     list_native_configs :=
       fun _ g => if decide (g = "Camera") then ["HighRes"; "Fast"] else [];
     get_native_config_data :=
       fun _ g c =>
         if decide (g = "Camera") then
           if decide (c = "HighRes") then [("Cam", "Binning", "1")]
           else if decide (c = "Fast") then [("Cam", "Binning", "2")]
           else []
         else [];
     apply_native_config :=
       fun e g c =>
         if decide (g = "Camera") then
           if decide (c = "HighRes") then ("1", Ok tt)
           else if decide (c = "Fast") then ("2", Ok tt)
           else (e, Raise (ConfigNotFound g c))
         else (e, Raise (ConfigNotFound g c));
     get_native_property :=
       fun e d p =>
         if decide (d = "Cam") then
           if decide (p = "Binning") then Ok e
           else Raise (Exn Exception_ ("No property: " +:+ p))
         else Raise (Exn Exception_ ("No device: " +:+ d));
     set_native_property :=
       fun e d p v =>
         if decide (d = "Cam") then
           if decide (p = "Binning") then (v, Ok tt)
           else (e, Raise (Exn Exception_ ("No property: " +:+ p)))
         else (e, Raise (Exn Exception_ ("No device: " +:+ d))) |}.

(** The LED of test_state_label_synchronization. *)
Definition PyLED : device :=
  {| dev_state :=
       SimStateDevice_init {[ 0 := "UV"; 1 := "BLUE"; 2 := "RED" ]};
     dev_extra := [("Intensity", (PInt 50, true))] |}.

(** The core of that test once the group "test" and its two valid configs,
    and a config that matches the same state as "state_cfg", are defined. *)
Definition test_core : @core unit :=
  {| devices := [("PyLED", PyLED)];
     store :=
       run_all [DefineGroup "test";
                DefineConfig "test" "state_cfg" "PyLED" "State" "1";
                DefineConfig "test" "label_cfg" "PyLED" "Label" "RED";
                DefineConfig "test" "blue_cfg" "PyLED" "Label" "BLUE"];
     engine := tt |}.

(** A core on [camera_engine], with the camera at binning 2, whose
    software store has a group "Camera" of its own next to the group
    "test". *)
Definition mixed_core : @core string :=
  {| devices := [("PyLED", PyLED)];
     store :=
       run_all [DefineGroup "Camera";
                DefineConfig "Camera" "soft_cfg" "PyLED" "State" "1";
                DefineGroup "test";
                DefineConfig "test" "state_cfg" "PyLED" "State" "1"];
     engine := "2" |}.

End Merge.

(** * Properties *)

(** ** Dicts *)

Module PyFacts.
Import Py.

Lemma dict_get_set_eq {K V} `{EqDecision K} (k : K) (v : V) d :
  dict_get k (dict_set k v d) = Some v.
Proof.
  induction d as [|[k' v'] d IH]; simpl.
  - by rewrite decide_True.
  - destruct (decide (k = k')) as [->|Hne]; simpl.
    + by rewrite decide_True.
    + by rewrite decide_False.
Qed.

Lemma dict_get_set_ne {K V} `{EqDecision K} (k j : K) (v : V) d :
  k <> j -> dict_get j (dict_set k v d) = dict_get j d.
Proof.
  intros Hne. induction d as [|[k' v'] d IH]; simpl.
  - rewrite decide_False; [done | congruence].
  - destruct (decide (k = k')) as [->|Hne']; simpl.
    + rewrite !decide_False; [done | congruence | congruence].
    + destruct (decide (j = k')); [done | apply IH].
Qed.

Lemma dict_set_Forall {K V} `{EqDecision K} (P : K * V -> Prop) k v d :
  Forall P d -> P (k, v) -> Forall P (dict_set k v d).
Proof.
  intros Hd Hp. induction Hd as [|[k' v'] d Hx Hd IH]; simpl.
  - by constructor.
  - destruct (decide (k = k')); by constructor.
Qed.

Lemma dict_del_Forall {K V} `{EqDecision K} (P : K * V -> Prop) k d :
  Forall P d -> Forall P (dict_del k d).
Proof.
  intros Hd. induction Hd as [|[k' v'] d Hx Hd IH]; simpl; [done |].
  destruct (decide (k = k')); [done | by constructor].
Qed.

Lemma dict_get_Forall {K V} `{EqDecision K} (P : K * V -> Prop) k v d :
  Forall P d -> dict_get k d = Some v -> P (k, v).
Proof.
  intros Hd. induction Hd as [|[k' v'] d Hx Hd IH]; simpl; [done |].
  destruct (decide (k = k')) as [->|]; [by intros [= <-] | done].
Qed.

(** *** Integer literals *)

(** What [int()] accepts: whitespace around the literal, a sign, single
    underscores between digits, leading zeros; and what it refuses. *)
Example parse_int_accepts :
  parse_int "42" = Some 42
  /\ parse_int " 7 " = Some 7
  /\ parse_int (String (Ascii.ascii_of_nat 9) "7") = Some 7
  /\ parse_int "+7" = Some 7
  /\ parse_int " -12" = Some (-12)
  /\ parse_int "1_000" = Some 1000
  /\ parse_int "007" = Some 7.
Proof. repeat split. Qed.

Example parse_int_refuses :
  parse_int "" = None
  /\ parse_int " " = None
  /\ parse_int "-" = None
  /\ parse_int "- 7" = None
  /\ parse_int "+-7" = None
  /\ parse_int "1__0" = None
  /\ parse_int "_1" = None
  /\ parse_int "1_" = None
  /\ parse_int "1 2" = None
  /\ parse_int "7x" = None
  /\ parse_int "1.5" = None
  /\ parse_int (String (Ascii.ascii_of_nat 28) "7") = None.
Proof. repeat split. Qed.

(** *** Slices and broadcasting *)

(** Shapes that broadcast to (2, 3), with the source index that the
    destination index (1, 2) reads, and shapes that do not. *)
Example broadcast_index_examples :
  ((fun ix => ix [1; 2]) <$> broadcast_index [2; 3] [2; 3]) = Some [1; 2]
  /\ ((fun ix => ix [1; 2]) <$> broadcast_index [2; 3] [1; 3]) = Some [0; 2]
  /\ ((fun ix => ix [1; 2]) <$> broadcast_index [2; 3] [3]) = Some [2]
  /\ ((fun ix => ix [1; 2]) <$> broadcast_index [2; 3] [2; 1]) = Some [1; 0]
  /\ ((fun ix => ix [1; 2]) <$> broadcast_index [2; 3] [1; 1; 2; 3])
     = Some [0; 0; 1; 2]
  /\ ((fun ix => ix [1; 2]) <$> broadcast_index [2; 3] []) = Some []
  /\ broadcast_index [2; 3] [2; 3; 3] = None
  /\ broadcast_index [2; 3] [3; 2] = None
  /\ broadcast_index [2; 3] [2; 2; 3] = None
  /\ broadcast_index [2; 3] [2] = None.
Proof. repeat split. Qed.

Lemma slice_bounds_inside (start n len : Z) :
  0 <= start -> 0 < n -> start + n <= len ->
  slice_bounds start (start + n) len = (start, n).
Proof.
  intros H0 Hn Hlen. unfold slice_bounds, slice_index.
  destruct (Z.ltb_spec start 0); [lia |].
  destruct (Z.ltb_spec (start + n) 0); [lia |].
  f_equal; lia.
Qed.

(** What [strip_leading_ones] leaves of a shape with at least [n] axes has
    [n] axes as soon as it has no more than [n], and what it dropped were
    axes of length 1. *)
Lemma strip_leading_ones_spec (n : nat) (sv : list Z) :
  (n <= length sv)%nat ->
  (length (strip_leading_ones n sv) <= n)%nat ->
  length (strip_leading_ones n sv) = n
  /\ sv = replicate (length sv - n) 1 ++ strip_leading_ones n sv.
Proof.
  induction sv as [|d sv IH]; intros Hn Hlen.
  - simpl in *. split; [lia | done].
  - cbn [strip_leading_ones] in *.
    destruct ((n <? length (d :: sv))%nat && (d =? 1)) eqn:E.
    + apply andb_prop in E as [E1 E2].
      apply Nat.ltb_lt in E1. apply Z.eqb_eq in E2. subst d.
      cbn [length] in E1.
      destruct IH as [IH1 IH2]; [lia | done |].
      split; [done |].
      cbn [length]. replace (S (length sv) - n)%nat
        with (S (length sv - n)) by lia.
      cbn [replicate app]. by rewrite <- IH2.
    + cbn [length] in *. split; [lia |].
      replace (S (length sv) - n)%nat with 0%nat by lia. done.
Qed.

Lemma replicate_snoc2 {A} (n : nat) (x : A) :
  replicate n x ++ [x; x] = x :: x :: replicate n x.
Proof.
  induction n as [|n IH]; [done |]. cbn [replicate app]. by rewrite IH.
Qed.

(** An array broadcasts to its own shape. *)
Lemma broadcast_index_2d_same (h w : Z) :
  is_Some (broadcast_index [h; w] [h; w]).
Proof.
  unfold broadcast_index. cbn. rewrite !Z.eqb_refl. cbn. eauto.
Qed.

(** When a block of [h] rows and [w] columns, with whatever further axes,
    broadcasts to a destination of shape (h, w), the destination's element
    (r, c) is read from the block's element at row [r] and column [c], and
    at 0 along the further axes. *)
Lemma broadcast_index_block (h w : Z) (rest : list Z) f (r c : Z) :
  broadcast_index [h; w] (h :: w :: rest) = Some f ->
  0 <= r < h -> 0 <= c < w ->
  f [r; c] = r :: c :: replicate (length rest) 0.
Proof.
  unfold broadcast_index. intros Hb Hr Hc.
  destruct ((length (strip_leading_ones (length [h; w]) (h :: w :: rest))
             <=? length [h; w])%nat) eqn:Hlen; [| done].
  apply Nat.leb_le in Hlen.
  destruct (strip_leading_ones_spec (length [h; w]) (h :: w :: rest))
    as [Hlen2 Hsv]; [cbn [length]; lia | done |].
  destruct (strip_leading_ones (length [h; w]) (h :: w :: rest))
    as [|a [|b [|? ?]]]; try done.
  cbn [length Nat.sub drop andb axes_fit] in Hb.
  cbn [length Nat.sub] in Hsv.
  rewrite Nat.sub_0_r in Hb, Hsv.
  destruct (((a =? h) || (a =? 1)) && (((b =? w) || (b =? 1)) && true))
    eqn:Hfit; [| done].
  injection Hb as <-.
  apply andb_prop in Hfit as [Ha Hfit].
  apply andb_prop in Hfit as [Hb _].
  apply orb_prop in Ha. apply orb_prop in Hb.
  rewrite !Z.eqb_eq in Ha, Hb.
  cbn [drop zip_with].
  destruct rest as [|r1 rest].
  - cbn [length replicate app] in *. injection Hsv as <- <-.
    f_equal; [| f_equal].
    + destruct (Z.eqb_spec h 1); [lia | done].
    + destruct (Z.eqb_spec w 1); [lia | done].
  - cbn [length replicate app] in Hsv. injection Hsv as Hh Hrest.
    assert (w = 1) as Hw.
    { destruct rest as [|r2 rest]; cbn [length replicate app] in Hrest.
      - injection Hrest as Hwa _. destruct Ha; lia.
      - by injection Hrest as Hw _. }
    assert (a = 1) as -> by (destruct Ha; lia).
    assert (b = 1) as -> by (destruct Hb; lia).
    assert (r = 0) as -> by lia. assert (c = 0) as -> by lia.
    cbn. by rewrite replicate_snoc2.
Qed.

End PyFacts.

(** ** The camera device contract *)

Module CameraFacts.
Import Py Camera PyFacts.

Section Facts.
Context {D Meta DType px : Type} {px_inhabited : Inhabited px}.
Implicit Types (cls : @CameraClass D Meta DType px) (cam : @camera D).

(** *** ROI *)

Lemma set_roi_cases cls cam (x y width height h w : Z) rest :
  sensor_shape cls cam = h :: w :: rest ->
  set_roi cls cam x y width height
  = if (x <? 0) || (y <? 0) || (width <=? 0) || (height <=? 0)
    then (cam,
          Raise (Exn ValueError
                   ("Invalid ROI " +:+ roi_text x y width height +:+ ": "
                      +:+ "coordinates must be non-negative and dimensions positive.")))
    else if (x + width >? w) || (y + height >? h)
    then (cam,
          Raise (Exn ValueError
                   ("ROI " +:+ roi_text x y width height
                      +:+ " exceeds sensor bounds (" +:+ pretty w +:+ "x"
                      +:+ pretty h +:+ ").")))
    else (with_roi cam (Some (x, y, width, height)), Ok tt).
Proof. intros Hs. unfold set_roi. by rewrite Hs. Qed.

(** C1, as amended: on a camera whose sensor shape starts with (height,
    width), a candidate ROI with a negative coordinate, a non-positive
    extent, or reaching past the sensor makes [set_roi] fail with a
    [ValueError] and leaves the camera, its stored ROI included, exactly as
    it was; any other candidate is stored and the call succeeds. *)
Theorem set_roi_validates cls cam (x y width height h w : Z) rest :
  sensor_shape cls cam = h :: w :: rest ->
  (x < 0 \/ y < 0 \/ width <= 0 \/ height <= 0
   \/ x + width > w \/ y + height > h ->
   exists msg,
     set_roi cls cam x y width height = (cam, Raise (Exn ValueError msg)))
  /\ (~ (x < 0 \/ y < 0 \/ width <= 0 \/ height <= 0
         \/ x + width > w \/ y + height > h) ->
      set_roi cls cam x y width height
      = (with_roi cam (Some (x, y, width, height)), Ok tt)
      /\ _roi (set_roi cls cam x y width height).1
         = Some (x, y, width, height)).
Proof.
  intros Hs. rewrite (set_roi_cases _ _ _ _ _ _ _ _ _ Hs).
  destruct ((x <? 0) || (y <? 0) || (width <=? 0) || (height <=? 0)) eqn:E1.
  - split; [eauto | intros Hn; exfalso; apply Hn].
    repeat (apply orb_prop in E1; destruct E1 as [E1|E1]); lia.
  - destruct ((x + width >? w) || (y + height >? h)) eqn:E2.
    + split; [eauto | intros Hn; exfalso; apply Hn].
      apply orb_prop in E2; destruct E2 as [E2|E2]; lia.
    + split; [| done].
      intros Hbad. exfalso.
      repeat (apply orb_false_elim in E1; destruct E1 as [E1 ?]).
      apply orb_false_elim in E2; destruct E2 as [E2 ?].
      lia.
Qed.

(** A stored ROI satisfies the ROI invariant for the sensor it was
    validated against. *)
Lemma set_roi_within cls cam (x y width height H W : Z) cam' :
  sensor_shape cls cam = [H; W] ->
  set_roi cls cam x y width height = (cam', Ok tt) ->
  _roi cam' = Some (x, y, width, height)
  /\ roi_within (x, y, width, height) H W.
Proof.
  intros Hs. rewrite (set_roi_cases _ _ _ _ _ _ _ _ _ Hs).
  destruct ((x <? 0) || (y <? 0) || (width <=? 0) || (height <=? 0)) eqn:E1;
    [done |].
  destruct ((x + width >? W) || (y + height >? H)) eqn:E2; [done |].
  intros [= <-]. split; [done |].
  repeat (apply orb_false_elim in E1; destruct E1 as [E1 ?]).
  apply orb_false_elim in E2; destruct E2 as [E2 ?].
  unfold roi_within. lia.
Qed.

(** C2: the current shape is the sensor shape while no ROI is set, and
    (height, width) of the ROI while one is. *)
Theorem shape_tracks_roi cls cam :
  (_roi cam = None -> shape cls cam = sensor_shape cls cam)
  /\ (forall x y w h,
        _roi cam = Some (x, y, w, h) -> shape cls cam = [h; w]).
Proof.
  unfold shape. split.
  - by intros ->.
  - by intros x y w h ->.
Qed.

Lemma shape_after_clear_roi cls cam :
  shape cls (clear_roi cam) = sensor_shape cls cam.
Proof. reflexivity. Qed.

(** *** Construction and the standard properties *)

(** C5: [CameraDevice.__init__] raises the [TypeError] that names the
    contract as soon as the class overrides neither [snap] nor
    [start_sequence], and returns the constructed camera when the class
    overrides at least one of them. *)
Theorem init_requires_snap_or_sequence cls (d : D) :
  (cls_snap cls = None /\ cls_start_sequence cls = None ->
   CameraDevice_init cls d
   = Raise (Exn TypeError
              (cls_name cls +:+ " must implement snap() or start_sequence()")))
  /\ (cls_snap cls <> None \/ cls_start_sequence cls <> None ->
      CameraDevice_init cls d
      = Ok (register_standard_properties cls (Device_init d))).
Proof.
  unfold CameraDevice_init. split.
  - by intros [-> ->].
  - intros [Hn|Hn].
    + destruct (cls_snap cls); [done | by destruct Hn].
    + destruct (cls_snap cls); [done |].
      destruct (cls_start_sequence cls); [done | by destruct Hn].
Qed.

Lemma class_getattr_get_binning cls :
  class_getattr cls "get_binning"
  = Some (default get_binning (cls_dict cls !! "get_binning")).
Proof.
  unfold class_getattr.
  rewrite !decide_False by discriminate.
  destruct (cls_dict cls !! "get_binning"); [done |].
  by rewrite decide_True.
Qed.

Lemma class_getattr_set_binning cls :
  class_getattr cls "set_binning" = cls_dict cls !! "set_binning".
Proof.
  unfold class_getattr.
  rewrite !decide_False by discriminate.
  by destruct (cls_dict cls !! "set_binning").
Qed.

Lemma register_standard_property_other cls cam item k :
  item.1 <> k ->
  dict_get k (cam_props (register_standard_property cls cam item))
  = dict_get k (cam_props cam).
Proof.
  destruct item as [name [snake ty]]. simpl. intros Hne.
  destruct (class_getattr cls ("get_" +:+ snake)); [| done].
  simpl. by apply dict_get_set_ne.
Qed.

Lemma register_all_other cls items cam k :
  Forall (fun item => item.1 <> k) items ->
  dict_get k (cam_props (foldl (register_standard_property cls) cam items))
  = dict_get k (cam_props cam).
Proof.
  intros Hall. revert cam.
  induction Hall as [|item items Hne _ IH]; intros cam; [done |].
  simpl. rewrite IH. by apply register_standard_property_other.
Qed.

Lemma binning_descriptor cls (d : D) :
  dict_get (KW Binning)
    (cam_props (register_standard_properties cls (Device_init d)))
  = Some {| prop_name := KW Binning;
            property_type := Tint;
            getter := default get_binning (cls_dict cls !! "get_binning");
            setter := cls_dict cls !! "set_binning";
            sequence_loader := class_getattr cls "load_binning_sequence";
            sequence_starter := class_getattr cls "start_binning_sequence";
            sequence_stopper := class_getattr cls "stop_binning_sequence" |}.
Proof.
  unfold register_standard_properties.
  change STANDARD_PROPERTIES
    with (take 2 STANDARD_PROPERTIES ++ drop 2 STANDARD_PROPERTIES).
  rewrite foldl_app, register_all_other
    by (repeat constructor; discriminate).
  cbn [take drop foldl STANDARD_PROPERTIES].
  set (cam1 := register_standard_property cls (Device_init d) _).
  unfold register_standard_property.
  change ("get_" +:+ "binning") with "get_binning".
  change ("set_" +:+ "binning") with "set_binning".
  rewrite class_getattr_get_binning, class_getattr_set_binning.
  unfold register_property. cbn [cam_props].
  by rewrite dict_get_set_eq.
Qed.

(** C10, as amended: every camera that [CameraDevice.__init__] constructs
    has the [Binning] property registered, whatever the subclass defines;
    the property is read-only exactly when the subclass defines no
    [set_binning], and it reads as 1 whenever the subclass defines no
    [get_binning] of its own. *)
Theorem binning_always_registered cls (d : D) cam :
  CameraDevice_init cls d = Ok cam ->
  (exists p, dict_get (KW Binning) (cam_props cam) = Some p)
  /\ (is_property_read_only cam (KW Binning) = Some true
      <-> cls_dict cls !! "set_binning" = None)
  /\ (cls_dict cls !! "get_binning" = None ->
      get_property_value cam (KW Binning) = Some (Ok (PInt 1))).
Proof.
  unfold CameraDevice_init.
  intros Hinit.
  assert (cam = register_standard_properties cls (Device_init d)) as ->.
  { destruct (cls_snap cls), (cls_start_sequence cls); congruence. }
  unfold is_property_read_only, get_property_value.
  rewrite binning_descriptor. cbn [setter getter].
  split; [eauto |]. split.
  - split.
    + intros [= Hb]. by apply bool_decide_eq_true in Hb.
    + intros ->. by rewrite bool_decide_eq_true_2.
  - by intros ->.
Qed.

(** *** The default acquisition loop *)

Lemma snap_override cls (f : snap_fn) cam (buf : ndarray px) :
  cls_snap cls = Some f ->
  snap cls cam buf
  = (with_dev cam (f (cam_dev cam) buf).1.1,
     Ok ((f (cam_dev cam) buf).1.2,
         {| arr_shape := arr_shape buf; arr_at := (f (cam_dev cam) buf).2 |})).
Proof.
  intros Hf. unfold snap. rewrite Hf.
  by destruct (f (cam_dev cam) buf) as [[d m] data].
Qed.

Lemma noroi_loop_stop cls gb sensor dtype (count limit : Z) (wd : world) :
  limit <= count ->
  noroi_loop cls gb sensor dtype count limit wd = (GenDone, wd, StopIteration).
Proof.
  intros Hle. unfold noroi_loop.
  destruct (Z.ltb_spec count limit); [lia | done].
Qed.

Lemma roi_loop_stop cls gb sensor dtype x y w h full (count limit : Z)
    (wd : world) :
  limit <= count ->
  roi_loop cls gb sensor dtype x y w h full count limit wd
  = (GenDone, wd, StopIteration).
Proof.
  intros Hle. unfold roi_loop.
  destruct (Z.ltb_spec count limit); [lia | done].
Qed.

(** One frame of the loop without ROI, read off a pull that yielded. *)
Lemma noroi_loop_frame cls (f : snap_fn) gb sensor dtype count limit
    (wd : world) g' wd' meta :
  cls_snap cls = Some f ->
  noroi_loop cls gb sensor dtype count limit wd = (g', wd', Yield meta) ->
  exists bufs1 b buf,
    gb sensor dtype (w_bufs wd) = (bufs1, b)
    /\ bufs1 !! b = Some buf
    /\ (f (cam_dev (w_cam wd)) buf).1 = (cam_dev (w_cam wd'), meta)
    /\ w_bufs wd'
       = <[b := {| arr_shape := arr_shape buf;
                   arr_at := (f (cam_dev (w_cam wd)) buf).2 |}]> bufs1
    /\ g' = GenNoRoi gb sensor dtype count limit
    /\ w_log wd' = w_log wd ++ [EvGetBuffer sensor b; EvSnapInto (Some b)]
    /\ _roi (w_cam wd') = _roi (w_cam wd).
Proof.
  intros Hf. unfold noroi_loop.
  destruct (count <? limit); [| done].
  destruct (gb sensor dtype (w_bufs wd)) as [bufs1 b] eqn:Hgb.
  destruct (bufs1 !! b) as [buf|] eqn:Hb; [| done].
  rewrite (snap_override _ _ _ _ Hf).
  intros [= <- <- <-]. exists bufs1, b, buf. simpl.
  rewrite <- app_assoc. repeat split; try done.
  by destruct (f (cam_dev (w_cam wd)) buf) as [[d m] data].
Qed.

(** One frame of the loop with an ROI, read off a pull that yielded. *)
Lemma roi_loop_frame cls (f : snap_fn) gb sensor dtype x y w h full
    count limit (wd : world) g' wd' meta :
  cls_snap cls = Some f ->
  roi_loop cls gb sensor dtype x y w h full count limit wd
  = (g', wd', Yield meta) ->
  exists bufs1 b out region ix,
    gb (shape cls (w_cam wd)) dtype (w_bufs wd) = (bufs1, b)
    /\ bufs1 !! b = Some out
    /\ (f (cam_dev (w_cam wd)) full).1 = (cam_dev (w_cam wd'), meta)
    /\ crop {| arr_shape := arr_shape full;
               arr_at := (f (cam_dev (w_cam wd)) full).2 |} y h x w
       = Ok region
    /\ broadcast_index (arr_shape out) (arr_shape region) = Some ix
    /\ w_bufs wd'
       = <[b := {| arr_shape := arr_shape out;
                   arr_at := fun idx => arr_at region (ix idx) |}]>
           bufs1
    /\ g' = GenRoi gb sensor dtype x y w h
              {| arr_shape := arr_shape full;
                 arr_at := (f (cam_dev (w_cam wd)) full).2 |} count limit
    /\ w_log wd'
       = w_log wd ++ [EvGetBuffer (shape cls (w_cam wd)) b; EvSnapInto None;
                      EvCropInto y h x w b]
    /\ _roi (w_cam wd') = _roi (w_cam wd).
Proof.
  intros Hf. unfold roi_loop.
  destruct (count <? limit); [| done].
  destruct (gb (shape cls (w_cam wd)) dtype (w_bufs wd)) as [bufs1 b] eqn:Hgb.
  destruct (bufs1 !! b) as [out|] eqn:Hb; [| done].
  rewrite (snap_override _ _ _ _ Hf).
  destruct (crop _ y h x w) as [region|e] eqn:Hcrop; [| done].
  unfold assign_all.
  destruct (arr_shape out) as [|d0 ds] eqn:Hout; [done |].
  destruct (broadcast_index (d0 :: ds) (arr_shape region)) as [ix|] eqn:Hix;
    [| done].
  intros [= <- <- <-]. exists bufs1, b, out, region, ix. simpl.
  rewrite Hout, <- !app_assoc. repeat split; try done.
  by destruct (f (cam_dev (w_cam wd)) full) as [[d m] data].
Qed.

Lemma crop_shape (a region : ndarray px) y h x w :
  crop a y h x w = Ok region ->
  exists Hs Ws rest,
    arr_shape a = Hs :: Ws :: rest
    /\ arr_shape region
       = (slice_bounds y (y + h) Hs).2 :: (slice_bounds x (x + w) Ws).2
           :: rest
    /\ forall r c tl,
         arr_at region (r :: c :: tl)
         = arr_at a ((slice_bounds y (y + h) Hs).1 + r
                       :: (slice_bounds x (x + w) Ws).1 + c :: tl).
Proof.
  unfold crop.
  destruct (arr_shape a) as [|Hs [|Ws rest]]; [done | done |].
  intros Hc. exists Hs, Ws, rest. revert Hc.
  destruct (slice_bounds y (y + h) Hs) as [ys hh].
  destruct (slice_bounds x (x + w) Ws) as [xs ww].
  by intros [= <-].
Qed.

Lemma np_empty_shape (sh : list Z) (a : ndarray px) :
  np_empty sh = Ok a -> arr_shape a = sh.
Proof.
  unfold np_empty. destruct (forallb _ sh); [| done]. by intros [= <-].
Qed.

Lemma good_provider_lookup (gb : buffer_provider) sh (dt : DType) bufs
    bufs1 b :
  good_provider gb ->
  gb sh dt bufs = (bufs1, b) ->
  exists a : ndarray px, bufs1 !! b = Some a /\ arr_shape a = sh.
Proof.
  intros Hg Hgb. destruct (Hg sh dt bufs) as (a & Ha & Hsh).
  rewrite Hgb in Ha. eauto.
Qed.

(** With a good provider and the stored ROI within the rows and columns of
    the scratch buffer, a frame that the ROI loop yields carries exactly the
    rows and columns of the ROI. *)
Lemma roi_loop_cropped cls (f : snap_fn) gb sensor dtype x y w h full
    count limit (wd : world) g' wd' meta Hs Ws rest :
  cls_snap cls = Some f ->
  good_provider gb ->
  _roi (w_cam wd) = Some (x, y, w, h) ->
  arr_shape full = Hs :: Ws :: rest ->
  roi_within (x, y, w, h) Hs Ws ->
  roi_loop cls gb sensor dtype x y w h full count limit wd
  = (g', wd', Yield meta) ->
  exists bufs1 b out out',
    gb [h; w] dtype (w_bufs wd) = (bufs1, b)
    /\ bufs1 !! b = Some out
    /\ (f (cam_dev (w_cam wd)) full).1 = (cam_dev (w_cam wd'), meta)
    /\ g' = GenRoi gb sensor dtype x y w h
              {| arr_shape := arr_shape full;
                 arr_at := (f (cam_dev (w_cam wd)) full).2 |} count limit
    /\ w_bufs wd' = <[b := out']> bufs1
    /\ arr_shape out' = [h; w]
    /\ (forall r c,
          0 <= r < h -> 0 <= c < w ->
          arr_at out' [r; c]
          = (f (cam_dev (w_cam wd)) full).2
              (y + r :: x + c :: replicate (length rest) 0))
    /\ w_log wd'
       = w_log wd ++ [EvGetBuffer [h; w] b; EvSnapInto None;
                      EvCropInto y h x w b]
    /\ _roi (w_cam wd') = _roi (w_cam wd).
Proof.
  intros Hf Hg Hroi Hfull (Hx & Hy & Hw & Hh & Hxw & Hyh) Hloop.
  apply (roi_loop_frame _ _ _ _ _ _ _ _ _ _ _ _ _ _ _ _ Hf) in Hloop
    as (bufs1 & b & out & region & ix & Hgb & Hb & Hsnap & Hcrop & Hix
        & Hbufs & -> & Hlog & Hkeep).
  assert (shape cls (w_cam wd) = [h; w]) as Hsh
    by (unfold shape; by rewrite Hroi).
  rewrite Hsh in Hgb, Hlog.
  destruct (good_provider_lookup _ _ _ _ _ _ Hg Hgb) as (a & Ha & Hout).
  assert (a = out) as -> by congruence.
  apply crop_shape in Hcrop as (Hs' & Ws' & rest' & Hin & Hrs & Hat).
  cbn [arr_shape] in Hin. rewrite Hfull in Hin. injection Hin as <- <- <-.
  rewrite (slice_bounds_inside y h Hs), (slice_bounds_inside x w Ws)
    in Hrs, Hat by lia.
  cbn [fst snd] in Hrs, Hat.
  rewrite Hout, Hrs in Hix.
  eexists bufs1, b, out, _. rewrite Hout in Hbufs.
  repeat split; try done.
  intros r c Hr Hc. cbn [arr_at].
  by rewrite (broadcast_index_block _ _ _ _ _ _ Hix Hr Hc), Hat.
Qed.

(** C4, as amended: with a class that overrides [snap], a provider that
    hands out buffers of the requested shape, and the camera's ROI being the
    one the sequence read on its first pull and lying within the rows and
    columns of the sensor, every frame the default [start_sequence] yields
    was acquired as follows.  Without ROI: a buffer of the sensor shape was
    obtained from the provider and [snap] filled that very buffer; no
    scratch buffer exists and nothing was copied.  With the ROI
    (x, y, w, h): [snap] filled the sensor-shaped scratch buffer that the
    generator keeps, and the buffer of shape (h, w) obtained from the
    provider holds exactly rows y .. y+h and columns x .. x+w of it.  The
    sequence stays in step with the camera for as long as the ROI is left
    alone. *)
Theorem default_sequence_frame cls (f : snap_fn) g (wd : world) g' wd' meta :
  cls_snap cls = Some f ->
  in_sync g wd ->
  (forall gb, gen_provider g = Some gb -> good_provider gb) ->
  roi_in_sensor cls g wd ->
  next cls g wd = (g', wd', Yield meta) ->
  match _roi (w_cam wd) with
  | None => frame_direct cls f g wd g' wd' meta
  | Some (x, y, w, h) => frame_cropped cls f g wd g' wd' meta x y w h
  end
  /\ in_sync g' wd'
  /\ roi_in_sensor cls g' wd'.
Proof.
  intros Hf Hsync Hgood Hin Hnext. unfold roi_in_sensor in *.
  destruct g as [n gb|gb sensor dtype count limit
                |gb sensor dtype x y w h full count limit|];
    simpl in Hnext.
  - specialize (Hgood gb eq_refl).
    destruct (_roi (w_cam wd)) as [[[[x y] w] h]|] eqn:Hroi.
    + destruct Hin as (Hs & Ws & rest & Hsens & Hin).
      cbn [gen_sensor] in Hsens.
      destruct (np_empty (sensor_shape cls (w_cam wd))) as [full|e] eqn:Hemp;
        [| done].
      pose proof (np_empty_shape _ _ Hemp) as Hfull.
      assert (_roi (w_cam (log_event wd
                             (EvEmpty (sensor_shape cls (w_cam wd)))))
              = Some (x, y, w, h)) as Hroi' by exact Hroi.
      assert (arr_shape full = Hs :: Ws :: rest) as Hfull'
        by (by rewrite Hfull).
      apply (roi_loop_cropped _ _ _ _ _ _ _ _ _ _ _ _ _ _ _ _ _ _ _
               Hf Hgood Hroi' Hfull' Hin) in Hnext
        as (bufs1 & b & out & out' & Hgb & Hb & Hsnap & -> & Hbufs & Hsh
            & Hpix & Hlog & Hkeep).
      unfold log_event in *. simpl in *.
      split; [| split; [by rewrite Hkeep |]].
      * exists gb, bufs1, b, out, full, out'.
        cbn [gen_sensor gen_scratch gen_provider gen_dtype frame_scratch].
        rewrite Hlog, <- app_assoc, Hemp, Hsens. cbn [length Nat.sub].
        rewrite Nat.sub_0_r. by repeat split.
      * rewrite Hkeep, Hroi'. by exists Hs, Ws, rest.
    + apply (noroi_loop_frame _ _ _ _ _ _ _ _ _ _ _ Hf) in Hnext
        as (bufs1 & b & buf & Hgb & Hb & Hsnap & Hbufs & -> & Hlog & Hkeep).
      destruct (good_provider_lookup _ _ _ _ _ _ Hgood Hgb)
        as (a & Ha & Hshape).
      assert (a = buf) as -> by congruence.
      rewrite Hroi in Hkeep.
      split; [| split; [by simpl | by rewrite Hkeep]].
      exists gb, bufs1, b, buf. by repeat split.
  - specialize (Hgood gb eq_refl). simpl in Hsync. rewrite Hsync.
    apply (noroi_loop_frame _ _ _ _ _ _ _ _ _ _ _ Hf) in Hnext
      as (bufs1 & b & buf & Hgb & Hb & Hsnap & Hbufs & -> & Hlog & Hkeep).
    destruct (good_provider_lookup _ _ _ _ _ _ Hgood Hgb)
      as (a & Ha & Hshape).
    assert (a = buf) as -> by congruence.
    rewrite Hsync in Hkeep.
    split; [| split; [by simpl | by rewrite Hkeep]].
    exists gb, bufs1, b, buf. by repeat split.
  - specialize (Hgood gb eq_refl). destruct Hsync as [Hroi Hfull].
    rewrite Hroi in *.
    destruct Hin as (Hs & Ws & rest & Hsens & Hin).
    cbn [gen_sensor] in Hsens.
    assert (arr_shape full = Hs :: Ws :: rest) as Hfull'
      by (by rewrite Hfull).
    apply (roi_loop_cropped _ _ _ _ _ _ _ _ _ _ _ _ _ _ _ _ _ _ _
             Hf Hgood Hroi Hfull' Hin) in Hnext
      as (bufs1 & b & out & out' & Hgb & Hb & Hsnap & -> & Hbufs & Hsh
          & Hpix & Hlog & Hkeep).
    split; [| split; [by simpl; rewrite Hkeep, Hroi |]].
    + exists gb, bufs1, b, out, full, out'.
      cbn [gen_sensor gen_scratch gen_provider gen_dtype frame_scratch].
      rewrite Hsens. cbn [length Nat.sub]. rewrite Nat.sub_0_r.
      by repeat split.
    + rewrite Hkeep, Hroi. by exists Hs, Ws, rest.
  - done.
Qed.

(** *** How many items the default sequence yields *)

Lemma noroi_loop_yield cls (f : snap_fn) gb sensor dtype (count limit : Z)
    (wd : world) :
  cls_snap cls = Some f ->
  good_provider gb ->
  count < limit ->
  exists wd' m,
    noroi_loop cls gb sensor dtype count limit wd
    = (GenNoRoi gb sensor dtype count limit, wd', Yield m)
    /\ _roi (w_cam wd') = _roi (w_cam wd).
Proof.
  intros Hf Hg Hlt. unfold noroi_loop.
  destruct (Z.ltb_spec count limit); [| lia].
  destruct (gb sensor dtype (w_bufs wd)) as [bufs1 b] eqn:Hgb.
  destruct (good_provider_lookup _ _ _ _ _ _ Hg Hgb) as (a & -> & _).
  rewrite (snap_override _ _ _ _ Hf). eauto.
Qed.

Lemma roi_loop_yield cls (f : snap_fn) gb sensor dtype x y w h full
    (count limit : Z) (wd : world) Hs Ws :
  cls_snap cls = Some f ->
  good_provider gb ->
  count < limit ->
  _roi (w_cam wd) = Some (x, y, w, h) ->
  arr_shape full = [Hs; Ws] ->
  roi_within (x, y, w, h) Hs Ws ->
  exists full1 wd' m,
    roi_loop cls gb sensor dtype x y w h full count limit wd
    = (GenRoi gb sensor dtype x y w h full1 count limit, wd', Yield m)
    /\ arr_shape full1 = arr_shape full
    /\ _roi (w_cam wd') = _roi (w_cam wd).
Proof.
  intros Hf Hg Hlt Hroi Hfull (Hx & Hy & Hw & Hh & Hxw & Hyh).
  unfold roi_loop.
  destruct (Z.ltb_spec count limit); [| lia].
  assert (shape cls (w_cam wd) = [h; w]) as ->
    by (unfold shape; by rewrite Hroi).
  destruct (gb [h; w] dtype (w_bufs wd)) as [bufs1 b] eqn:Hgb.
  destruct (good_provider_lookup _ _ _ _ _ _ Hg Hgb) as (out & -> & Hout).
  rewrite (snap_override _ _ _ _ Hf).
  unfold crop. cbn [arr_shape]. rewrite Hfull.
  rewrite (slice_bounds_inside y h Hs), (slice_bounds_inside x w Ws) by lia.
  unfold assign_all. cbn [arr_shape]. rewrite Hout.
  destruct (broadcast_index_2d_same h w) as [ix ->].
  eexists _, _, _. split; [reflexivity |]. by split.
Qed.

(** A running generator below its limit yields and keeps running. *)
Lemma next_running_yield cls (f : snap_fn) g (wd : world) (c : Z) :
  cls_snap cls = Some f ->
  running cls g wd c ->
  c < gen_limit g ->
  exists g' wd' m,
    next cls g wd = (g', wd', Yield m)
    /\ running cls g' wd' (c + 1)
    /\ gen_limit g' = gen_limit g.
Proof.
  intros Hf Hrun Hlt.
  destruct g as [n gb|gb sensor dtype count limit
                |gb sensor dtype x y w h full count limit|];
    simpl in Hrun, Hlt; simpl.
  - destruct Hrun as (-> & Hg & Hfit). unfold roi_fits in Hfit.
    destruct (_roi (w_cam wd)) as [[[[x y] w] h]|] eqn:Hroi.
    + destruct Hfit as (Hs & Ws & Hsens & Hin).
      rewrite Hsens. unfold np_empty.
      assert (forallb (fun d => 0 <=? d) [Hs; Ws] = true) as ->.
      { unfold roi_within in Hin. simpl.
        destruct (Z.leb_spec 0 Hs), (Z.leb_spec 0 Ws); try done; lia. }
      edestruct (roi_loop_yield cls f gb [Hs; Ws]
                   (cls_dtype cls (cam_dev (w_cam wd))) x y w h
                   {| arr_shape := [Hs; Ws];
                      arr_at := fun _ => inhabitant |} 0
                   (match n with Some k => k | None => 2 ^ 63 end)
                   (log_event wd (EvEmpty [Hs; Ws])) Hs Ws)
        as (full1 & wd' & m & -> & Hshape & Hkeep); try done.
      eexists _, wd', m. split; [reflexivity |]. split; [| done].
      simpl. repeat split; try done.
      * by rewrite Hkeep.
      * by exists Hs, Ws.
    + destruct (noroi_loop_yield cls f gb (sensor_shape cls (w_cam wd))
                  (cls_dtype cls (cam_dev (w_cam wd))) 0
                  (match n with Some k => k | None => 2 ^ 63 end) wd)
        as (wd' & m & -> & Hkeep); try done.
      eexists _, wd', m. split; [reflexivity |]. by repeat split.
  - destruct Hrun as (-> & Hg).
    destruct (noroi_loop_yield cls f gb sensor dtype (count + 1) limit wd)
      as (wd' & m & -> & Hkeep); try done.
    eexists _, wd', m. split; [reflexivity |]. by repeat split.
  - destruct Hrun as (-> & Hg & Hroi & Hfull & Hs & Ws & -> & Hin).
    destruct (roi_loop_yield cls f gb [Hs; Ws] dtype x y w h full
                (count + 1) limit wd Hs Ws)
      as (full1 & wd' & m & -> & Hshape & Hkeep); try done.
    eexists _, wd', m. split; [reflexivity |]. split; [| done].
    simpl. repeat split; try done.
    + by rewrite Hkeep.
    + by rewrite Hshape.
    + by exists Hs, Ws.
  - done.
Qed.

(** A running generator at its limit stops. *)
Lemma next_running_stop cls g (wd : world) (c : Z) :
  running cls g wd c ->
  gen_limit g <= c ->
  exists wd', next cls g wd = (GenDone, wd', StopIteration).
Proof.
  intros Hrun Hle.
  destruct g as [n gb|gb sensor dtype count limit
                |gb sensor dtype x y w h full count limit|];
    simpl in Hrun, Hle; simpl.
  - destruct Hrun as (-> & Hg & Hfit). unfold roi_fits in Hfit.
    destruct (_roi (w_cam wd)) as [[[[x y] w] h]|] eqn:Hroi.
    + destruct Hfit as (Hs & Ws & Hsens & Hin).
      rewrite Hsens. unfold np_empty.
      assert (forallb (fun d => 0 <=? d) [Hs; Ws] = true) as ->.
      { unfold roi_within in Hin. simpl.
        destruct (Z.leb_spec 0 Hs), (Z.leb_spec 0 Ws); try done; lia. }
      rewrite roi_loop_stop by done. eauto.
    + rewrite noroi_loop_stop by done. eauto.
  - destruct Hrun as (-> & Hg). rewrite noroi_loop_stop by lia. eauto.
  - destruct Hrun as (-> & _). rewrite roi_loop_stop by lia. eauto.
  - done.
Qed.

Lemma nth_pull_0 cls g (wd : world) : nth_pull cls 0 g wd = (next cls g wd).2.
Proof. reflexivity. Qed.

Lemma nth_pull_S cls k g (wd : world) :
  nth_pull cls (S k) g wd
  = nth_pull cls k (next cls g wd).1.1 (next cls g wd).1.2.
Proof.
  unfold nth_pull. cbn [pulls].
  destruct (next cls g wd) as [[g1 wd1] r]. cbn [fst snd].
  by destruct (pulls cls k g1 wd1) as [[g2 wd2] rs].
Qed.

Lemma nth_pull_done cls k (wd : world) :
  nth_pull cls k GenDone wd = StopIteration.
Proof.
  induction k as [|k IH]; [done |]. by rewrite nth_pull_S.
Qed.

(** The pulls on a running generator that has yielded [c] items: they
    yield up to the limit and report the end from there on. *)
Lemma nth_pull_running cls (f : snap_fn) (k : nat) g (wd : world) (c : Z) :
  cls_snap cls = Some f ->
  running cls g wd c ->
  (c + Z.of_nat k < gen_limit g -> exists m, nth_pull cls k g wd = Yield m)
  /\ (gen_limit g <= c + Z.of_nat k ->
      nth_pull cls k g wd = StopIteration).
Proof.
  intros Hf. revert g wd c.
  induction k as [|k IH]; intros g wd c Hrun.
  - rewrite nth_pull_0, Z.add_0_r. split.
    + intros Hlt.
      destruct (next_running_yield _ _ _ _ _ Hf Hrun Hlt)
        as (g' & wd' & m & -> & _). eauto.
    + intros Hle.
      by destruct (next_running_stop _ _ _ _ Hrun Hle) as (wd' & ->).
  - rewrite nth_pull_S, Nat2Z.inj_succ.
    destruct (Z.lt_ge_cases c (gen_limit g)) as [Hlt|Hge].
    + destruct (next_running_yield _ _ _ _ _ Hf Hrun Hlt)
        as (g' & wd' & m & -> & Hrun' & Hlim).
      cbn [fst snd]. rewrite <- Hlim.
      destruct (IH g' wd' (c + 1) Hrun') as [IHy IHs].
      split; intros Hk; [apply IHy | apply IHs]; lia.
    + destruct (next_running_stop _ _ _ _ Hrun Hge) as (wd' & ->).
      cbn [fst snd]. rewrite nth_pull_done.
      split; [intros; lia | done].
Qed.

(** Where every frame can be acquired (a class that overrides [snap], a
    provider that hands out buffers of the requested shape and an ROI, if
    any, within a two-dimensional sensor), the default sequence started with
    count [n] yields an item on each of its first [n] pulls and reports the
    end on every later one; started with [None] it does the same with 2^63
    in place of [n]. *)
Lemma default_sequence_length cls (f : snap_fn) gb (n : option Z)
    (wd : world) (k : nat) :
  cls_snap cls = Some f ->
  good_provider gb ->
  roi_fits cls (w_cam wd) ->
  (Z.of_nat k < (match n with Some c => c | None => 2 ^ 63 end) ->
   exists m, nth_pull cls k (start_sequence n gb) wd = Yield m)
  /\ ((match n with Some c => c | None => 2 ^ 63 end) <= Z.of_nat k ->
      nth_pull cls k (start_sequence n gb) wd = StopIteration).
Proof.
  intros Hf Hg Hfit.
  assert (running cls (start_sequence n gb) wd 0) as Hrun by done.
  exact (nth_pull_running cls f k _ wd 0 Hf Hrun).
Qed.

End Facts.

(** *** The properties at concrete cameras *)

Lemma set_roi_validates_witness :
  sensor_shape Demo.SnapOnly Demo.cam0 = [4; 6]
  /\ ~ (1 < 0 \/ 2 < 0 \/ 3 <= 0 \/ 2 <= 0 \/ 1 + 3 > 6 \/ 2 + 2 > 4)
  /\ set_roi Demo.SnapOnly Demo.cam0 1 2 3 2
     = (with_roi Demo.cam0 (Some (1, 2, 3, 2)), Ok tt).
Proof.
  split; [reflexivity |].
  assert (Hn : ~ (1 < 0 \/ 2 < 0 \/ 3 <= 0 \/ 2 <= 0 \/ 1 + 3 > 6 \/ 2 + 2 > 4))
    by lia.
  split; [exact Hn |].
  exact (proj1 (proj2 (set_roi_validates Demo.SnapOnly Demo.cam0
                         1 2 3 2 4 6 [] eq_refl) Hn)).
Defined.

(** C1, as stated, fails: the exception [set_roi] raises on a negative
    coordinate is a [ValueError], not an [InvalidROIError]. *)
Lemma set_roi_error_is_not_InvalidROIError :
  ~ (exists e,
       (set_roi Demo.SnapOnly Demo.cam0 (-1) 0 1 1).2 = Raise e
       /\ isinstance e "InvalidROIError" = true).
Proof.
  intros [e [He Hi]]. vm_compute in He. injection He as <-.
  vm_compute in Hi. discriminate.
Qed.

Lemma shape_tracks_roi_witness :
  shape Demo.SnapOnly Demo.cam0 = [4; 6]
  /\ shape Demo.SnapOnly Demo.cam_roi = [2; 3].
Proof.
  split.
  - exact (proj1 (shape_tracks_roi Demo.SnapOnly Demo.cam0) eq_refl).
  - exact (proj2 (shape_tracks_roi Demo.SnapOnly Demo.cam_roi)
             1 2 3 2 eq_refl).
Defined.

Lemma init_requires_snap_or_sequence_witness :
  CameraDevice_init Demo.Neither 0
  = Raise (Exn TypeError "Neither must implement snap() or start_sequence()")
  /\ is_ok (CameraDevice_init Demo.SnapOnly 0) = true
  /\ is_ok (CameraDevice_init Demo.SequenceOnly 0) = true.
Proof.
  split; [| split].
  - exact (proj1 (init_requires_snap_or_sequence Demo.Neither 0)
             (conj eq_refl eq_refl)).
  - rewrite (proj2 (init_requires_snap_or_sequence Demo.SnapOnly 0));
      [reflexivity | left; discriminate].
  - rewrite (proj2 (init_requires_snap_or_sequence Demo.SequenceOnly 0));
      [reflexivity | right; discriminate].
Defined.

Lemma binning_always_registered_witness :
  is_property_read_only
    (register_standard_properties Demo.SnapOnly (Device_init 0)) (KW Binning)
  = Some true
  /\ get_property_value
       (register_standard_properties Demo.SnapOnly (Device_init 0))
       (KW Binning)
     = Some (Ok (PInt 1)).
Proof.
  pose proof (binning_always_registered Demo.SnapOnly 0 _ eq_refl)
    as (_ & Hro & Hget).
  split.
  - apply Hro. reflexivity.
  - apply Hget. reflexivity.
Defined.

(** C10, as stated, fails: a class that defines [get_binning] and no
    [set_binning] has a read-only [Binning] property that does not read
    as 1. *)
Lemma binning_need_not_read_as_1 :
  ~ (forall cam,
       CameraDevice_init Demo.FixedBinning 0 = Ok cam ->
       cls_dict Demo.FixedBinning !! "set_binning" = None ->
       is_property_read_only cam (KW Binning) = Some true
       /\ get_property_value cam (KW Binning) = Some (Ok (PInt 1))).
Proof.
  intros Hclaim.
  destruct (Hclaim _ eq_refl eq_refl) as [_ Hget].
  vm_compute in Hget. discriminate.
Qed.

Lemma one_slot_good : good_provider Demo.one_slot.
Proof.
  intros sh dt bufs. unfold Demo.one_slot. cbn [fst snd].
  eexists. split; [apply lookup_insert_eq | reflexivity].
Qed.

Lemma cam_roi_fits : roi_fits Demo.SnapOnly Demo.cam_roi.
Proof. exists 4, 6. split; [reflexivity |]. unfold roi_within. lia. Qed.

Lemma world_roi_in_sensor :
  roi_in_sensor Demo.SnapOnly (start_sequence (Some 2) Demo.one_slot)
    Demo.world_roi.
Proof. exists 4, 6, []. split; [reflexivity |]. unfold roi_within. lia. Qed.

Example default_sequence_length_roi :
  (exists m,
     nth_pull Demo.SnapOnly 1 (start_sequence (Some 2) Demo.one_slot)
       Demo.world_roi = Yield m)
  /\ nth_pull Demo.SnapOnly 2 (start_sequence (Some 2) Demo.one_slot)
       Demo.world_roi = StopIteration.
Proof.
  split.
  - apply (proj1 (default_sequence_length Demo.SnapOnly Demo.demo_snap
                    Demo.one_slot (Some 2) Demo.world_roi 1
                    eq_refl one_slot_good cam_roi_fits)).
    reflexivity.
  - apply (proj2 (default_sequence_length Demo.SnapOnly Demo.demo_snap
                    Demo.one_slot (Some 2) Demo.world_roi 2
                    eq_refl one_slot_good cam_roi_fits)).
    discriminate.
Qed.

(** The limit of a sequence started with [None] is 2^63: the pull that
    follows 2^63 items reports the end. *)
Lemma indefinite_sequence_ends :
  ~ (forall k : nat,
       exists m,
         nth_pull Demo.SnapOnly k (start_sequence None Demo.one_slot)
           Demo.world0 = Yield m).
Proof.
  intros Hall.
  assert (exists k : nat, Z.of_nat k = 2 ^ 63) as [k Hk].
  { exists (Z.to_nat (2 ^ 63)). apply Z2Nat.id, Z.pow_nonneg. discriminate. }
  destruct (Hall k) as [m Hm].
  assert (running Demo.SnapOnly (start_sequence None Demo.one_slot)
            Demo.world0 0) as Hrun.
  { split; [reflexivity |]. split; [apply one_slot_good | exact I]. }
  destruct (nth_pull_running Demo.SnapOnly Demo.demo_snap k _ _ 0
              eq_refl Hrun) as [_ Hstop].
  rewrite Hstop in Hm; [discriminate |].
  rewrite Hk. apply Z.le_refl.
Qed.

(** C3, at a colour sensor: [set_roi] accepts the ROI (1, 2, 3, 2) on a
    sensor of shape (4, 6, 3), and the default sequence started there with
    count 2 and a provider that hands out buffers of the requested shape
    yields no item at all.  Its first pull allocates the scratch buffer,
    asks for a buffer of shape (2, 3), snaps, and raises the [ValueError]
    of copying the crop of shape (2, 3, 3) into that buffer; the iterator
    is finished from then on.  On the grayscale sensor of shape (4, 6) the
    same calls yield the two items. *)
Theorem colour_roi_sequence_yields_nothing :
  let r := set_roi Demo.Colour Demo.cam0 1 2 3 2 in
  let wd := with_cam Demo.world0 r.1 in
  let it := start_sequence (Some 2) Demo.one_slot in
  r.2 = Ok tt
  /\ _roi r.1 = Some (1, 2, 3, 2)
  /\ pulls Demo.Colour 2 it wd
     = (GenDone, (next Demo.Colour it wd).1.2,
        [Raised (Exn ValueError
                   "could not broadcast input array from shape (2,3,3) into shape (2,3)");
         StopIteration])
  /\ w_log (next Demo.Colour it wd).1.2
     = [EvEmpty [4; 6; 3]; EvGetBuffer [2; 3] 0; EvSnapInto None]
  /\ (pulls Demo.SnapOnly 2 it
        (with_cam Demo.world0 (set_roi Demo.SnapOnly Demo.cam0 1 2 3 2).1)).2
     = [Yield 0; Yield 1].
Proof.
  cbv zeta. split; [reflexivity |]. split; [reflexivity |].
  split; [reflexivity |]. split; reflexivity.
Qed.

Lemma default_sequence_frame_witness :
  frame_cropped Demo.SnapOnly Demo.demo_snap
    (start_sequence (Some 2) Demo.one_slot) Demo.world_roi
    (next Demo.SnapOnly (start_sequence (Some 2) Demo.one_slot)
       Demo.world_roi).1.1
    (next Demo.SnapOnly (start_sequence (Some 2) Demo.one_slot)
       Demo.world_roi).1.2
    0 1 2 3 2
  /\ frame_direct Demo.SnapOnly Demo.demo_snap
       (start_sequence (Some 2) Demo.one_slot) Demo.world0
       (next Demo.SnapOnly (start_sequence (Some 2) Demo.one_slot)
          Demo.world0).1.1
       (next Demo.SnapOnly (start_sequence (Some 2) Demo.one_slot)
          Demo.world0).1.2
       0.
Proof.
  split.
  - apply (default_sequence_frame Demo.SnapOnly Demo.demo_snap
             (start_sequence (Some 2) Demo.one_slot) Demo.world_roi _ _ 0
             eq_refl I).
    + intros gb [= <-]. apply one_slot_good.
    + apply world_roi_in_sensor.
    + reflexivity.
  - apply (default_sequence_frame Demo.SnapOnly Demo.demo_snap
             (start_sequence (Some 2) Demo.one_slot) Demo.world0 _ _ 0
             eq_refl I).
    + intros gb [= <-]. apply one_slot_good.
    + exact I.
    + reflexivity.
Defined.

(** C4, as stated, fails: the sequence reads the ROI once, on its first
    pull.  An ROI set after the first frame is active when the second frame
    is produced, yet that frame is acquired straight into a buffer of the
    full sensor shape. *)
Lemma roi_set_during_sequence_is_ignored :
  let s1 :=
    next Demo.SnapOnly (start_sequence (Some 2) Demo.one_slot) Demo.world0 in
  let wd2 :=
    with_cam s1.1.2 (set_roi Demo.SnapOnly (w_cam s1.1.2) 1 2 3 2).1 in
  let s3 := next Demo.SnapOnly s1.1.1 wd2 in
  _roi (w_cam wd2) = Some (1, 2, 3, 2)
  /\ s3.2 = Yield 1
  /\ (arr_shape <$> w_bufs s3.1.2 !! 0%nat) = Some [4; 6]
  /\ ~ frame_cropped Demo.SnapOnly Demo.demo_snap s1.1.1 wd2 s3.1.1 s3.1.2
         1 1 2 3 2.
Proof.
  intros s1 wd2 s3.
  split; [reflexivity |]. split; [reflexivity |].
  split; [vm_compute; reflexivity |].
  intros (gb & bufs1 & b & out & scratch & out' & _ & _ & _ & _ & _ & _
          & Hkept & _).
  assert (gen_scratch s3.1.1 = None) as Hnone by reflexivity.
  rewrite Hnone in Hkept. discriminate Hkept.
Qed.

(** The first frame of the demo camera with ROI (1, 2, 3, 2): the pixel at
    row 1, column 2 of the provided buffer is the one at row 3, column 3 of
    the sensor, and three buffer operations follow the allocation of the
    scratch buffer. *)
Example demo_first_frame :
  let '(g, wd, r) :=
    next Demo.SnapOnly (start_sequence (Some 2) Demo.one_slot) Demo.world_roi
  in
  r = Yield 0
  /\ ((fun a => arr_at a [1; 2]) <$> w_bufs wd !! 0%nat) = Some 33
  /\ (arr_shape <$> w_bufs wd !! 0%nat) = Some [2; 3]
  /\ w_log wd = [EvEmpty [4; 6]; EvGetBuffer [2; 3] 0; EvSnapInto None;
                 EvCropInto 2 2 1 3 0].
Proof. vm_compute. repeat split. Qed.

(** A stored ROI that reaches past the sensor, which [set_roi] refuses to
    store, is clamped by the slice: of the ROI (0, 3, 3, 2) on the sensor of
    4 rows only row 3 is there, and the copy repeats it in both rows of the
    buffer of shape (2, 3). *)
Example roi_beyond_sensor_frame :
  let wd := with_cam Demo.world0 (with_roi Demo.cam0 (Some (0, 3, 3, 2))) in
  let s := next Demo.SnapOnly (start_sequence (Some 1) Demo.one_slot) wd in
  (set_roi Demo.SnapOnly Demo.cam0 0 3 3 2).2
  = Raise (Exn ValueError "ROI (0, 3, 3, 2) exceeds sensor bounds (6x4).")
  /\ s.2 = Yield 0
  /\ ((fun a => (arr_shape a, arr_at a [0; 1], arr_at a [1; 1]))
        <$> w_bufs s.1.2 !! 0%nat)
     = Some ([2; 3], 31, 31).
Proof. vm_compute. repeat split. Qed.

End CameraFacts.

(** ** The configuration store *)

Module ConfigStoreFacts.
Import Py ConfigStore PyFacts.

Lemma pairs_of_put_setting dev prop value (c : Config) :
  pairs_of (put_setting dev prop value c)
  = if decide ((dev, prop) ∈ pairs_of c) then pairs_of c
    else pairs_of c ++ [(dev, prop)].
Proof.
  induction c as [|[[d p] v] c IH]; simpl; [done |].
  destruct (decide ((d, p) = (dev, prop))) as [Heq|Hne]; simpl.
  - destruct (decide ((dev, prop) ∈ (d, p) :: pairs_of c)) as [_|Hn].
    + by rewrite Heq.
    + destruct Hn. rewrite Heq. by left.
  - rewrite IH.
    destruct (decide ((dev, prop) ∈ pairs_of c)) as [Hin|Hnin];
      destruct (decide ((dev, prop) ∈ (d, p) :: pairs_of c)) as [Hin'|Hnin'];
      try done.
    + destruct Hnin'. by right.
    + apply elem_of_cons in Hin' as [?|?]; congruence.
Qed.

Lemma put_setting_NoDup dev prop value (c : Config) :
  NoDup (pairs_of c) -> NoDup (pairs_of (put_setting dev prop value c)).
Proof.
  intros Hc. rewrite pairs_of_put_setting.
  destruct (decide ((dev, prop) ∈ pairs_of c)); [done |].
  apply NoDup_app. split; [done |]. split; [| apply NoDup_singleton].
  intros x Hx ->%list_elem_of_singleton. done.
Qed.

Lemma elem_of_pairs_of d p v (c : Config) :
  (d, p, v) ∈ c -> (d, p) ∈ pairs_of c.
Proof.
  intros Hin. unfold pairs_of.
  apply list_elem_of_In, in_map_iff. exists (d, p, v).
  split; [done | by apply list_elem_of_In].
Qed.

(** The value kept for a redefined pair is the new one. *)
Lemma put_setting_last_wins dev prop value (c : Config) v :
  NoDup (pairs_of c) ->
  (dev, prop, v) ∈ put_setting dev prop value c <-> v = value.
Proof.
  intros Hc. induction c as [|[[d p] v0] c IH]; simpl.
  - rewrite list_elem_of_singleton. split; congruence.
  - apply NoDup_cons in Hc as [Hnin Hc].
    destruct (decide ((d, p) = (dev, prop))) as [Heq|Hne].
    + injection Heq as -> ->. rewrite elem_of_cons. split.
      * intros [Hh|Ht]; [congruence |].
        by apply elem_of_pairs_of in Ht.
      * intros ->. by left.
    + rewrite elem_of_cons, (IH Hc). split.
      * intros [Hh|Ht]; [congruence | done].
      * intros ->. by right.
Qed.

(** The settings of the other pairs are untouched. *)
Lemma put_setting_others dev prop value (c : Config) d p v :
  (d, p) <> (dev, prop) ->
  (d, p, v) ∈ put_setting dev prop value c <-> (d, p, v) ∈ c.
Proof.
  intros Hne. induction c as [|[[d0 p0] v0] c IH]; simpl.
  - rewrite list_elem_of_singleton. split; [congruence |].
    by intros ?%elem_of_nil.
  - destruct (decide ((d0, p0) = (dev, prop))) as [Heq|Hne0].
    + rewrite !elem_of_cons. split; (intros [Hh|Ht]; [congruence | by right]).
    + rewrite !elem_of_cons, IH. done.
Qed.

Lemma dict_rename_Forall {V} (P : V -> Prop) old new
    (d : list (string * V)) :
  Forall (fun e => P e.2) d -> Forall (fun e => P e.2) (dict_rename old new d).
Proof.
  intros Hd. induction Hd as [|[k v] d Hx Hd IH]; simpl; [done |].
  destruct (decide (k = old)); by constructor.
Qed.

Lemma group_of_deduplicated g (st : Store) :
  deduplicated st ->
  Forall (fun c => NoDup (pairs_of c.2)) (group_of g st).
Proof.
  intros Hst. unfold group_of.
  destruct (dict_get g st) as [grp|] eqn:Hg; simpl; [| done].
  exact (dict_get_Forall _ _ _ _ Hst Hg).
Qed.

Lemma config_of_deduplicated g c (st : Store) :
  deduplicated st -> NoDup (pairs_of (config_of g c st)).
Proof.
  intros Hst. unfold config_of.
  destruct (dict_get c (group_of g st)) as [cfg|] eqn:Hc; simpl.
  - exact (dict_get_Forall (fun e => NoDup (pairs_of e.2)) _ _ _
             (group_of_deduplicated g st Hst) Hc).
  - apply NoDup_nil_2.
Qed.

(** Every mutation of the store keeps the configs deduplicated. *)
Lemma run_deduplicated o (st : Store) :
  deduplicated st -> deduplicated (run o st).
Proof.
  intros Hst. unfold deduplicated.
  destruct o as [g|g c|g c dev prop value|old new|g|g old new|g c]; simpl.
  - unfold define_group. destruct (dict_get g st); [done |].
    apply dict_set_Forall; [done | by simpl].
  - apply dict_set_Forall; [done |]. simpl.
    apply dict_set_Forall; [by apply group_of_deduplicated |].
    by apply config_of_deduplicated.
  - apply dict_set_Forall; [done |]. simpl.
    apply dict_set_Forall; [by apply group_of_deduplicated |].
    by apply put_setting_NoDup, config_of_deduplicated.
  - unfold rename_group. destruct (dict_get old st); [| done].
    destruct (decide (old = new)); [done |]. simpl.
    apply (dict_rename_Forall
             (fun g => Forall (fun c => NoDup (pairs_of c.2)) g)).
    by apply dict_del_Forall.
  - unfold delete_group. destruct (dict_get g st); [| done].
    by apply dict_del_Forall.
  - unfold rename_config.
    destruct (dict_get g st) as [grp|] eqn:Hg; [| done].
    destruct (dict_get old grp); [| done].
    destruct (decide (old = new)); [done |]. simpl.
    apply dict_set_Forall; [done |]. simpl.
    apply (dict_rename_Forall (fun c => NoDup (pairs_of c))).
    apply dict_del_Forall.
    exact (dict_get_Forall _ _ _ _ Hst Hg).
  - unfold delete_config.
    destruct (dict_get g st) as [grp|] eqn:Hg; [| done].
    destruct (dict_get c grp); [| done]. simpl.
    apply dict_set_Forall; [done |]. simpl.
    apply dict_del_Forall.
    exact (dict_get_Forall _ _ _ _ Hst Hg).
Qed.

Lemma foldl_run_deduplicated ops (st : Store) :
  deduplicated st -> deduplicated (foldl (fun st o => run o st) st ops).
Proof.
  revert st. induction ops as [|o ops IH]; intros st Hst; [done |].
  simpl. by apply IH, run_deduplicated.
Qed.

Lemma get_config_data_define_config g c dev prop value (st : Store) :
  get_config_data g c (define_config g c dev prop value st)
  = Ok (put_setting dev prop value (config_of g c st)).
Proof.
  unfold get_config_data, define_config.
  by rewrite !dict_get_set_eq.
Qed.

(** C9: in every store reached from the empty one by the store's
    operations, no config holds two settings for the same (device,
    property) pair; and after [define_config] the config holds for the
    defined pair the new value and no other, whatever it held before, with
    the settings of the other pairs as they were. *)
Theorem settings_deduplicated :
  (forall ops, deduplicated (run_all ops))
  /\ (forall ops g c dev prop value,
        exists cfg,
          get_config_data g c
            (define_config g c dev prop value (run_all ops)) = Ok cfg
          /\ NoDup (pairs_of cfg)
          /\ (forall v, (dev, prop, v) ∈ cfg <-> v = value)
          /\ (forall d p v,
                (d, p) <> (dev, prop) ->
                (d, p, v) ∈ cfg <-> (d, p, v) ∈ config_of g c (run_all ops))).
Proof.
  assert (forall ops, deduplicated (run_all ops)) as Hall.
  { intros ops. apply foldl_run_deduplicated. constructor. }
  split; [exact Hall |].
  intros ops g c dev prop value.
  exists (put_setting dev prop value (config_of g c (run_all ops))).
  pose proof (config_of_deduplicated g c _ (Hall ops)) as Hnd.
  split; [apply get_config_data_define_config |].
  split; [by apply put_setting_NoDup |].
  split; [intros v; by apply put_setting_last_wins |].
  intros d p v Hne. by apply put_setting_others.
Qed.

Lemma settings_deduplicated_witness :
  exists cfg,
    get_config_data "channel" "uv_bright"
      (define_config "channel" "uv_bright" "PyLED" "Label" "BLUE"
         (run_all [DefineConfig "channel" "uv_bright" "PyLED" "Label" "UV";
                   DefineConfig "channel" "uv_bright" "PyLED" "Intensity"
                     "100"]))
    = Ok cfg
    /\ NoDup (pairs_of cfg)
    /\ (forall v, ("PyLED", "Label", v) ∈ cfg <-> v = "BLUE")
    /\ (forall d p v,
          (d, p) <> ("PyLED", "Label") ->
          (d, p, v) ∈ cfg
          <-> (d, p, v)
              ∈ config_of "channel" "uv_bright"
                  (run_all
                     [DefineConfig "channel" "uv_bright" "PyLED" "Label" "UV";
                      DefineConfig "channel" "uv_bright" "PyLED" "Intensity"
                        "100"])).
Proof.
  exact (proj2 settings_deduplicated
           [DefineConfig "channel" "uv_bright" "PyLED" "Label" "UV";
            DefineConfig "channel" "uv_bright" "PyLED" "Intensity" "100"]
           "channel" "uv_bright" "PyLED" "Label" "BLUE").
Defined.

(** The two definitions of test_multiple_properties_per_device_in_config,
    followed by a redefinition of the first pair. *)
Example redefinition_replaces :
  get_config_data "channel" "uv_bright"
    (run_all [DefineGroup "channel";
              DefineConfig "channel" "uv_bright" "PyLED" "Label" "UV";
              DefineConfig "channel" "uv_bright" "PyLED" "Intensity" "100";
              DefineConfig "channel" "uv_bright" "PyLED" "Label" "BLUE"])
  = Ok [("PyLED", "Label", "BLUE"); ("PyLED", "Intensity", "100")].
Proof. reflexivity. Qed.

End ConfigStoreFacts.

(** ** Discrete-state devices *)

Module StateDeviceFacts.
Import Py StateDevice PyFacts.

Lemma index_of_label (d : SimStateDevice) l i :
  index_of d l = Some i -> label_of d i = Some l.
Proof.
  unfold index_of, label_of.
  destruct (list_find _ _) as [[n [j l']]|] eqn:Hfind; [| done].
  simpl. intros [= <-].
  apply list_find_Some in Hfind as (Hn & Hl & _). simpl in Hl. subst l'.
  apply elem_of_map_to_list, list_elem_of_lookup. eauto.
Qed.

Lemma SimStateDevice_set_state_int (d : SimStateDevice) i :
  SimStateDevice_set_state d (PosInt i)
  = ({| _current_state := i;
        _current_label := _state_to_label d !! i;
        _state_to_label := _state_to_label d |}, Ok tt).
Proof. reflexivity. Qed.

(** [set_state] leaves a synced device synced, whether it succeeds or
    fails. *)
Lemma set_state_synced (d : SimStateDevice) a :
  synced d -> synced (set_state d a).1.
Proof.
  intros Hd. destruct a as [i|l]; simpl.
  - destruct (label_of d i); [reflexivity | exact Hd].
  - destruct (index_of d l); [reflexivity | exact Hd].
Qed.

Lemma set_state_index_ok (d d' : SimStateDevice) i :
  set_state d (ByIndex i) = (d', Ok tt) ->
  get_state d' = i /\ get_label d' = label_of d' i.
Proof.
  simpl. destruct (label_of d i); [| done].
  rewrite SimStateDevice_set_state_int. by intros [= <-].
Qed.

Lemma set_state_label_ok (d d' : SimStateDevice) l :
  set_state d (ByLabel l) = (d', Ok tt) ->
  index_of d' l = Some (get_state d') /\ get_label d' = Some l.
Proof.
  simpl. destruct (index_of d l) as [i|] eqn:Hi; [| done].
  rewrite SimStateDevice_set_state_int. intros [= <-].
  split; [exact Hi |]. exact (index_of_label d l i Hi).
Qed.

Lemma set_property_value_synced (dv : device) name value :
  synced (dev_state dv) ->
  synced (dev_state (set_property_value dv name value).1).
Proof.
  intros Hd. unfold set_property_value.
  destruct (decide (name = "State")).
  { destruct (parse_int value) as [i|]; [| exact Hd].
    pose proof (set_state_synced (dev_state dv) (ByIndex i) Hd) as Hs.
    by destruct (set_state (dev_state dv) (ByIndex i)). }
  destruct (decide (name = "Label")).
  { pose proof (set_state_synced (dev_state dv) (ByLabel value) Hd) as Hs.
    by destruct (set_state (dev_state dv) (ByLabel value)). }
  destruct (dict_get name (dev_extra dv)) as [[old [|]]|]; try exact Hd.
  destruct (coerce old value); exact Hd.
Qed.

End StateDeviceFacts.

(** ** The config application and merge engine *)

Module MergeFacts.
Import Py StateDevice ConfigStore Merge PyFacts StateDeviceFacts.

Section Facts.
Context {E : Type} (eng : @NativeEngine E).
Implicit Types (c : @core E).

Lemma set_property_synced c dev prop value :
  all_synced c -> all_synced (set_property eng c dev prop value).1.
Proof.
  intros Hc. unfold set_property.
  destruct (dict_get dev (devices c)) as [d|] eqn:Hd.
  - pose proof (set_property_value_synced d prop value
                  (dict_get_Forall (fun e => synced (dev_state e.2))
                     _ _ _ Hc Hd)) as Hs.
    destruct (set_property_value d prop value) as [d' r]. simpl in *.
    by apply (dict_set_Forall (fun e => synced (dev_state e.2))).
  - by destruct (set_native_property eng (engine c) dev prop value).
Qed.

Lemma apply_settings_synced l c :
  all_synced c -> all_synced (apply_settings eng c l).1.
Proof.
  revert c. induction l as [|[[d p] v] l IH]; intros c Hc; [done |].
  simpl. pose proof (set_property_synced c d p v Hc) as Hs.
  destruct (set_property eng c d p v) as [c' [[]|e]]; [by apply IH | done].
Qed.

Lemma set_config_synced c g cfg :
  all_synced c -> all_synced (set_config eng c g cfg).1.
Proof.
  intros Hc. unfold set_config.
  destruct (bool_decide _).
  - destruct (apply_native_config eng (engine c) g cfg) as [e' [[]|err]];
      [| done].
    by apply apply_settings_synced.
  - destruct (dict_get cfg (group_of g (store c))); [| done].
    by apply apply_settings_synced.
Qed.

(** C6: on a device that satisfies label_of(current_index) =
    current_label, every state-changing operation (set_state by index or by
    label, setting the "State" or "Label" property, applying a config)
    leaves the invariant in place, whether it succeeds or fails; after a
    successful set_state(index) the label is label_of(index), and after a
    successful set_state(label) the state is index_of(label). *)
Theorem state_label_sync :
  (forall (d : SimStateDevice) a, synced d -> synced (set_state d a).1)
  /\ (forall (d d' : SimStateDevice) i,
        set_state d (ByIndex i) = (d', Ok tt) ->
        get_state d' = i /\ get_label d' = label_of d' i)
  /\ (forall (d d' : SimStateDevice) l,
        set_state d (ByLabel l) = (d', Ok tt) ->
        index_of d' l = Some (get_state d') /\ get_label d' = Some l)
  /\ (forall (dv : device) name value,
        synced (dev_state dv) ->
        synced (dev_state (set_property_value dv name value).1))
  /\ (forall c g cfg,
        all_synced c -> all_synced (set_config eng c g cfg).1).
Proof.
  split; [exact set_state_synced |].
  split; [exact set_state_index_ok |].
  split; [exact set_state_label_ok |].
  split; [exact set_property_value_synced |].
  exact set_config_synced.
Qed.

(** C7: the answer to a native request for the state of a group, listed
    by the native engine or not, is the same for any two cores with the same
    engine state, whatever their software stores and software devices hold:
    it never comes from the software store.  For a group the native engine
    does not list, that answer is the [RuntimeError] of the native-only
    failure, also when the software store has a group of that name. *)
Theorem native_request_is_strict c g :
  (forall c',
     engine c' = engine c ->
     get_config_group_state eng c' g true
     = get_config_group_state eng c g true)
  /\ (g ∉ list_native_groups eng (engine c) ->
      get_config_group_state eng c g true
      = Raise (NativeOnlyRequestFailure g)
      /\ exn_class (NativeOnlyRequestFailure g) = RuntimeError
      /\ forall c',
           engine c' = engine c ->
           get_config_group_state eng c' g true
           = Raise (NativeOnlyRequestFailure g)).
Proof.
  assert (forall c', engine c' = engine c ->
            get_config_group_state eng c' g true
            = get_config_group_state eng c g true) as Hsame.
  { intros c' He. unfold get_config_group_state. by rewrite He. }
  split; [exact Hsame |].
  intros Hg.
  assert (get_config_group_state eng c g true
          = Raise (NativeOnlyRequestFailure g)) as Hfail.
  { unfold get_config_group_state, native_group_state.
    by rewrite bool_decide_eq_false_2. }
  split; [exact Hfail |]. split; [reflexivity |].
  intros c' He. by rewrite (Hsame c' He).
Qed.

Lemma config_matches_spec c (cfg : Config) :
  config_matches eng c cfg = true
  <-> (forall d p v,
         (d, p, v) ∈ cfg ->
         exists live,
           get_property eng c d p = Ok live /\ values_match live v = true).
Proof.
  unfold config_matches. rewrite forallb_forall. split.
  - intros Hall d p v Hin.
    specialize (Hall (d, p, v) (proj1 (list_elem_of_In _ _) Hin)).
    unfold setting_matches in Hall. simpl in Hall.
    destruct (get_property eng c d p) as [live|]; [eauto | done].
  - intros Hall [[d p] v] Hin.
    destruct (Hall d p v (proj2 (list_elem_of_In _ _) Hin))
      as (live & Hget & Hm).
    unfold setting_matches. simpl. by rewrite Hget.
Qed.

Lemma find_first {A} (f : A -> bool) (l : list A) x :
  List.find f l = Some x
  <-> exists before after,
        l = before ++ x :: after
        /\ f x = true
        /\ Forall (fun y => f y = false) before.
Proof.
  induction l as [|a l IH]; simpl.
  - split; [done |]. intros (before & after & Hl & _).
    by destruct before.
  - destruct (f a) eqn:Hfa.
    + split.
      * intros [= <-]. exists [], l. by repeat split.
      * intros (before & after & Hl & Hfx & Hb).
        destruct before as [|b before]; simpl in Hl.
        -- by injection Hl as <- _.
        -- injection Hl as <- _. apply Forall_cons in Hb as [Hb _].
           congruence.
    + rewrite IH. split.
      * intros (before & after & -> & Hfx & Hb).
        exists (a :: before), after. repeat split; [done |].
        by constructor.
      * intros (before & after & Hl & Hfx & Hb).
        destruct before as [|b before]; simpl in Hl.
        -- injection Hl as <- _. congruence.
        -- injection Hl as <- ->. apply Forall_cons in Hb as [_ Hb].
           by exists before, after.
Qed.

Lemma find_none {A} (f : A -> bool) (l : list A) :
  List.find f l = None <-> Forall (fun y => f y = false) l.
Proof.
  induction l as [|a l IH]; simpl; [by split |].
  destruct (f a) eqn:Hfa.
  - split; [done |]. intros [Hb _]%Forall_cons. congruence.
  - rewrite IH. split; [by constructor | by intros [_ ?]%Forall_cons].
Qed.

(** C8: a config is current exactly when every setting it declares has
    its live value matching the declared one; [get_current_config] returns
    the name of the first current config in definition order, and returns
    [None], without raising, exactly when no config of the group is
    current. *)
Theorem current_config_is_first_match c g :
  (forall cfg,
     config_matches eng c cfg = true
     <-> (forall d p v,
            (d, p, v) ∈ cfg ->
            exists live,
              get_property eng c d p = Ok live
              /\ values_match live v = true))
  /\ (forall name,
        get_current_config eng c g = Some name
        <-> exists before cfg after,
              all_configs eng c g = before ++ (name, cfg) :: after
              /\ config_matches eng c cfg = true
              /\ Forall (fun e => config_matches eng c e.2 = false) before)
  /\ (get_current_config eng c g = None
      <-> Forall (fun e => config_matches eng c e.2 = false)
            (all_configs eng c g)).
Proof.
  split; [apply config_matches_spec |]. unfold get_current_config. split.
  - intros name. split.
    + destruct (List.find _ _) as [[n cfg]|] eqn:Hfind; [| done].
      simpl. intros [= ->].
      apply find_first in Hfind as (before & after & Hl & Hm & Hb).
      by exists before, cfg, after.
    + intros (before & cfg & after & Hl & Hm & Hb).
      assert (List.find (fun e => config_matches eng c e.2)
                (all_configs eng c g) = Some (name, cfg)) as ->; [| done].
      apply find_first. by exists before, after.
  - rewrite <- find_none.
    destruct (List.find _ _); simpl; split; done.
Qed.

End Facts.

Lemma test_core_synced : all_synced test_core.
Proof. repeat constructor. Qed.

Lemma state_label_sync_witness :
  synced (set_state (dev_state PyLED) (ByLabel "RED")).1
  /\ get_state (set_state (dev_state PyLED) (ByIndex 1)).1 = 1
  /\ get_label (set_state (dev_state PyLED) (ByIndex 1)).1 = Some "BLUE"
  /\ index_of (set_state (dev_state PyLED) (ByLabel "RED")).1 "RED"
     = Some (get_state (set_state (dev_state PyLED) (ByLabel "RED")).1)
  /\ synced (dev_state (set_property_value PyLED "State" "999").1)
  /\ all_synced (set_config no_engine test_core "test" "label_cfg").1.
Proof.
  destruct (state_label_sync no_engine)
    as (Hkeep & Hindex & Hlabel & Hprop & Hconfig).
  assert (synced (dev_state PyLED)) as Hled by reflexivity.
  split; [exact (Hkeep _ (ByLabel "RED") Hled) |].
  destruct (Hindex (dev_state PyLED) _ 1 eq_refl) as [Hs Hl].
  split; [exact Hs |]. split; [exact Hl |].
  destruct (Hlabel (dev_state PyLED) _ "RED" eq_refl) as [Hi _].
  split; [exact Hi |].
  split; [exact (Hprop PyLED "State" "999" Hled) |].
  exact (Hconfig test_core "test" "label_cfg" test_core_synced).
Defined.

Lemma native_request_is_strict_witness :
  config_exists "Camera" "soft_cfg" (store mixed_core) = true
  /\ get_config_group_state camera_engine mixed_core "Camera" true
     = get_config_group_state camera_engine
         {| devices := []; store := []; engine := "2" |} "Camera" true
  /\ get_config_group_state camera_engine mixed_core "Camera" true
     = Ok (NativeState [("Cam", "Binning", "2")])
  /\ config_exists "test" "state_cfg" (store mixed_core) = true
  /\ get_config_group_state camera_engine mixed_core "test" true
     = Raise (NativeOnlyRequestFailure "test").
Proof.
  split; [reflexivity |]. split.
  - symmetry.
    exact (proj1 (native_request_is_strict camera_engine mixed_core "Camera")
             {| devices := []; store := []; engine := "2" |} eq_refl).
  - split; [reflexivity |]. split; [reflexivity |].
    refine (proj1 (proj2 (native_request_is_strict camera_engine mixed_core
                            "test") _)).
    intros Hin. apply list_elem_of_singleton in Hin. discriminate Hin.
Defined.

Lemma current_config_is_first_match_witness :
  get_current_config no_engine
    (set_config no_engine test_core "test" "state_cfg").1 "test"
  = Some "state_cfg".
Proof.
  apply (proj1 (proj2 (current_config_is_first_match no_engine
                         (set_config no_engine test_core "test"
                            "state_cfg").1 "test")) "state_cfg").
  exists [], [("PyLED", "State", "1")],
    [("label_cfg", [("PyLED", "Label", "RED")]);
     ("blue_cfg", [("PyLED", "Label", "BLUE")])].
  split; [vm_compute; reflexivity |].
  split; [vm_compute; reflexivity | constructor].
Defined.

(** The checks of test_state_label_synchronization: applying the "State"
    config syncs the label, applying the "Label" config syncs the state,
    and the invalid index and label are refused with the errors the test
    expects. *)
Example test_state_label_synchronization :
  let c1 := (set_config no_engine test_core "test" "state_cfg").1 in
  let c2 := (set_config no_engine c1 "test" "label_cfg").1 in
  get_property no_engine c1 "PyLED" "State" = Ok (PInt 1)
  /\ get_property no_engine c1 "PyLED" "Label" = Ok (PStr "BLUE")
  /\ get_current_config no_engine c1 "test" = Some "state_cfg"
  /\ get_property no_engine c2 "PyLED" "Label" = Ok (PStr "RED")
  /\ get_property no_engine c2 "PyLED" "State" = Ok (PInt 2)
  /\ get_current_config no_engine c2 "test" = Some "label_cfg"
  /\ get_current_config no_engine test_core "test" = None
  /\ (set_property no_engine c2 "PyLED" "State" "999").2
     = Raise (Exn ValueError "Position 999 is not a valid state")
  /\ (set_property no_engine c2 "PyLED" "Label" "INVALID").2
     = Raise (Exn RuntimeError "Label not defined: 'INVALID'").
Proof. vm_compute. repeat split. Qed.

End MergeFacts.

(** ** More on the camera device contract *)

Module CameraMore.
Import Py Camera PyFacts CameraFacts.

Section Facts.
Context {D Meta DType px : Type} {px_inhabited : Inhabited px}.
Implicit Types (cls : @CameraClass D Meta DType px) (cam : @camera D).

(** *** Sequences of ROI calls *)

Lemma set_roi_dev cls cam x y width height :
  cam_dev (set_roi cls cam x y width height).1 = cam_dev cam.
Proof.
  unfold set_roi.
  destruct (sensor_shape cls cam) as [|h [|w rest]]; try done.
  destruct (_ || _ || _ || _); [done |].
  by destruct (_ || _).
Qed.

Lemma do_roi_call_dev cls cam c :
  cam_dev (do_roi_call cls cam c) = cam_dev cam.
Proof. destruct c; [apply set_roi_dev | done]. Qed.

Lemma do_roi_call_sensor cls cam c :
  sensor_shape cls (do_roi_call cls cam c) = sensor_shape cls cam.
Proof. unfold sensor_shape. by rewrite do_roi_call_dev. Qed.

Lemma do_roi_call_valid cls cam c (Hs Ws : Z) rest :
  sensor_shape cls cam = Hs :: Ws :: rest ->
  roi_valid cam Hs Ws -> roi_valid (do_roi_call cls cam c) Hs Ws.
Proof.
  intros Hsens Hv. destruct c as [x y width height|]; [| done].
  simpl. rewrite (set_roi_cases _ _ _ _ _ _ _ _ _ Hsens).
  destruct ((x <? 0) || (y <? 0) || (width <=? 0) || (height <=? 0)) eqn:E1;
    [done |].
  destruct ((x + width >? Ws) || (y + height >? Hs)) eqn:E2; [done |].
  repeat (apply orb_false_elim in E1; destruct E1 as [E1 ?]).
  apply orb_false_elim in E2; destruct E2 as [E2 ?].
  unfold roi_valid, roi_within. simpl. lia.
Qed.

Lemma do_roi_calls_valid cls cs cam (Hs Ws : Z) rest :
  sensor_shape cls cam = Hs :: Ws :: rest ->
  roi_valid cam Hs Ws ->
  roi_valid (do_roi_calls cls cam cs) Hs Ws
  /\ sensor_shape cls (do_roi_calls cls cam cs) = Hs :: Ws :: rest.
Proof.
  revert cam. induction cs as [|c cs IH]; intros cam Hsens Hv; [done |].
  apply IH.
  - by rewrite do_roi_call_sensor.
  - by apply (do_roi_call_valid _ _ _ _ _ rest).
Qed.

(** X1: on a camera whose sensor shape starts with (H, W), any sequence of
    set_roi and clear_roi calls, whether they succeed or raise, keeps the
    ROI invariant: the stored ROI is absent or lies within the sensor, and
    the current shape is the sensor shape or an (h, w) no larger than the
    sensor. *)
Theorem roi_calls_keep_roi_within cls cam (cs : list roi_call)
    (Hs Ws : Z) rest :
  sensor_shape cls cam = Hs :: Ws :: rest ->
  roi_valid cam Hs Ws ->
  roi_valid (do_roi_calls cls cam cs) Hs Ws
  /\ match _roi (do_roi_calls cls cam cs) with
     | None => shape cls (do_roi_calls cls cam cs) = Hs :: Ws :: rest
     | Some (x, y, w, h) =>
         shape cls (do_roi_calls cls cam cs) = [h; w]
         /\ 0 < h <= Hs /\ 0 < w <= Ws
     end.
Proof.
  intros Hsens Hv.
  destruct (do_roi_calls_valid cls cs cam Hs Ws rest Hsens Hv) as [Hv' Hs'].
  split; [exact Hv' |].
  unfold roi_valid in Hv'. unfold shape.
  destruct (_roi (do_roi_calls cls cam cs)) as [[[[x y] w] h]|];
    [| exact Hs'].
  unfold roi_within in Hv'. split; [done | lia].
Qed.

(** X2: what a successful set_roi stores is what get_roi returns and what
    shape reports; clearing the ROI afterwards brings back the full frame
    (0, 0, W, H) and the sensor shape. *)
Theorem get_roi_after_set_roi cls cam (x y width height : Z) cam' :
  set_roi cls cam x y width height = (cam', Ok tt) ->
  get_roi cls cam' = Ok (x, y, width, height)
  /\ shape cls cam' = [height; width]
  /\ exists Hs Ws rest,
       sensor_shape cls cam = Hs :: Ws :: rest
       /\ get_roi cls (clear_roi cam') = Ok (0, 0, Ws, Hs)
       /\ shape cls (clear_roi cam') = Hs :: Ws :: rest.
Proof.
  intros Hset.
  assert (sensor_shape cls cam' = sensor_shape cls cam) as Hsame.
  { unfold sensor_shape.
    by rewrite <- (set_roi_dev cls cam x y width height), Hset. }
  destruct (sensor_shape cls cam) as [|Hs [|Ws rest]] eqn:Hsens;
    [by unfold set_roi in Hset; rewrite Hsens in Hset
    |by unfold set_roi in Hset; rewrite Hsens in Hset |].
  rewrite (set_roi_cases _ _ _ _ _ _ _ _ _ Hsens) in Hset.
  destruct (_ || _ || _ || _); [done |].
  destruct (_ || _); [done |].
  injection Hset as <-. split; [done |]. split; [done |].
  exists Hs, Ws, rest. split; [done |].
  unfold get_roi, shape, clear_roi. simpl.
  change (sensor_shape cls (with_roi (with_roi cam (Some (x, y, width, height)))
                              None))
    with (sensor_shape cls cam).
  by rewrite Hsens.
Qed.

(** X3: on a sensor of positive height and width, the ROI that get_roi
    returns (the stored one, or the full frame when none is stored) lies
    within the sensor, is accepted by set_roi, and is what get_roi returns
    again after it has been set. *)
Theorem set_roi_accepts_get_roi cls cam (Hs Ws : Z) rest :
  sensor_shape cls cam = Hs :: Ws :: rest ->
  0 < Hs -> 0 < Ws ->
  roi_valid cam Hs Ws ->
  exists x y w h,
    get_roi cls cam = Ok (x, y, w, h)
    /\ roi_within (x, y, w, h) Hs Ws
    /\ set_roi cls cam x y w h = (with_roi cam (Some (x, y, w, h)), Ok tt)
    /\ get_roi cls (with_roi cam (Some (x, y, w, h))) = Ok (x, y, w, h).
Proof.
  intros Hsens HH HW Hv.
  assert (exists x y w h,
            get_roi cls cam = Ok (x, y, w, h)
            /\ roi_within (x, y, w, h) Hs Ws) as (x & y & w & h & Hget & Hin).
  { unfold get_roi, roi_valid in *.
    destruct (_roi cam) as [[[[x y] w] h]|].
    - by exists x, y, w, h.
    - rewrite Hsens. exists 0, 0, Ws, Hs. split; [done |].
      unfold roi_within. lia. }
  exists x, y, w, h. split; [done |]. split; [done |]. split; [| done].
  rewrite (set_roi_cases _ _ _ _ _ _ _ _ _ Hsens).
  unfold roi_within in Hin.
  destruct ((x <? 0) || (y <? 0) || (w <=? 0) || (h <=? 0)) eqn:E1.
  { repeat (apply orb_prop in E1; destruct E1 as [E1|E1]); lia. }
  destruct ((x + w >? Ws) || (y + h >? Hs)) eqn:E2; [| done].
  apply orb_prop in E2; destruct E2 as [E2|E2]; lia.
Qed.

Lemma set_roi_no_room cls cam (x y width height : Z) :
  no_room (sensor_shape cls cam) ->
  exists msg,
    set_roi cls cam x y width height = (cam, Raise (Exn ValueError msg)).
Proof.
  intros Hno.
  destruct (sensor_shape cls cam) as [|Hs [|Ws rest]] eqn:Hsens.
  - unfold set_roi. rewrite Hsens. unfold unpack_error. eauto.
  - unfold set_roi. rewrite Hsens. unfold unpack_error. eauto.
  - rewrite (set_roi_cases _ _ _ _ _ _ _ _ _ Hsens). simpl in Hno.
    destruct ((x <? 0) || (y <? 0) || (width <=? 0) || (height <=? 0))
      eqn:E1; [eauto |].
    destruct ((x + width >? Ws) || (y + height >? Hs)) eqn:E2; [eauto |].
    repeat (apply orb_false_elim in E1; destruct E1 as [E1 ?]).
    apply orb_false_elim in E2; destruct E2 as [E2 ?].
    lia.
Qed.

Lemma do_roi_calls_no_room cls cs cam :
  no_room (sensor_shape cls cam) ->
  _roi cam = None ->
  _roi (do_roi_calls cls cam cs) = None.
Proof.
  revert cam. induction cs as [|c cs IH]; intros cam Hno Hnone; [done |].
  apply IH.
  - by rewrite do_roi_call_sensor.
  - destruct c as [x y width height|]; [| done]. simpl.
    by destruct (set_roi_no_room cls cam x y width height Hno) as [msg ->].
Qed.

(** X4: when the sensor shape has fewer than two entries, or a height or
    width that is not positive, set_roi rejects every candidate with a
    ValueError, the full frame included, and leaves the camera as it was;
    a camera without ROI stays without ROI whatever calls are made. *)
Theorem no_roi_without_room cls cam :
  no_room (sensor_shape cls cam) ->
  (forall x y width height,
     exists msg,
       set_roi cls cam x y width height = (cam, Raise (Exn ValueError msg)))
  /\ (forall cs, _roi cam = None -> _roi (do_roi_calls cls cam cs) = None).
Proof.
  intros Hno. split.
  - intros x y width height. by apply set_roi_no_room.
  - intros cs. by apply do_roi_calls_no_room.
Qed.

(** *** The registry in closed form *)

Lemma dict_set_absent {K V} `{EqDecision K} (k : K) (v : V) d :
  dict_get k d = None -> dict_set k v d = d ++ [(k, v)].
Proof.
  induction d as [|[k' v'] d IH]; simpl; [done |].
  destruct (decide (k = k')); [done |]. intros Hn. by rewrite IH.
Qed.

Lemma register_standard_property_props cls cam item :
  dict_get item.1 (cam_props cam) = None ->
  cam_props (register_standard_property cls cam item)
  = cam_props cam ++ option_list (standard_descriptor cls item).
Proof.
  destruct item as [name [snake ty]]. simpl. intros Hn.
  unfold standard_descriptor. simpl.
  destruct (class_getattr cls ("get_" +:+ snake)); simpl.
  - by apply dict_set_absent.
  - by rewrite app_nil_r.
Qed.

Lemma register_fold_props cls items cam :
  NoDup items.*1 ->
  (forall k, k ∈ items.*1 -> dict_get k (cam_props cam) = None) ->
  cam_props (foldl (register_standard_property cls) cam items)
  = cam_props cam ++ omap (standard_descriptor cls) items.
Proof.
  revert cam. induction items as [|item items IH]; intros cam Hnd Hfree.
  - simpl. by rewrite app_nil_r.
  - apply NoDup_cons in Hnd as [Hnin Hnd]. simpl.
    rewrite IH; [| done |].
    + rewrite register_standard_property_props
        by (apply Hfree; by left).
      rewrite <- app_assoc. f_equal.
      by destruct (standard_descriptor cls item).
    + intros k Hk. rewrite register_standard_property_other.
      * apply Hfree. by right.
      * intros Heq. apply Hnin. by rewrite Heq.
Qed.

Lemma register_fold_roi cls items cam :
  _roi (foldl (register_standard_property cls) cam items) = _roi cam
  /\ cam_dev (foldl (register_standard_property cls) cam items) = cam_dev cam.
Proof.
  revert cam. induction items as [|[name [snake ty]] items IH]; intros cam;
    [done |].
  cbn [foldl]. destruct (IH (register_standard_property cls cam
                               (name, (snake, ty)))) as [-> ->].
  unfold register_standard_property.
  by destruct (class_getattr cls ("get_" +:+ snake)).
Qed.

Lemma STANDARD_PROPERTIES_NoDup : NoDup STANDARD_PROPERTIES.*1.
Proof.
  apply (bool_decide_unpack (NoDup STANDARD_PROPERTIES.*1)).
  vm_compute. exact I.
Qed.

(** X5: the registry of a constructed camera holds, in the order of
    STANDARD_PROPERTIES, one property for each entry of that table whose
    getter the class has (with the class's setter and sequence hooks, if
    any), and nothing else: an entry without getter is skipped even when
    the class defines its setter.  The camera starts without ROI, on the
    state the subclass set up. *)
Theorem registry_is_standard_table cls (d : D) cam :
  CameraDevice_init cls d = Ok cam ->
  cam_props cam = omap (standard_descriptor cls) STANDARD_PROPERTIES
  /\ _roi cam = None
  /\ cam_dev cam = d.
Proof.
  unfold CameraDevice_init. intros Hinit.
  assert (cam = register_standard_properties cls (Device_init d)) as ->.
  { destruct (cls_snap cls), (cls_start_sequence cls); congruence. }
  unfold register_standard_properties. split.
  - rewrite register_fold_props;
      [done | apply STANDARD_PROPERTIES_NoDup | done].
  - apply register_fold_roi.
Qed.

Lemma class_getattr_get_exposure cls :
  class_getattr cls "get_exposure" = Some (cls_get_exposure cls).
Proof. unfold class_getattr. by rewrite decide_True. Qed.

Lemma class_getattr_set_exposure cls :
  class_getattr cls "set_exposure" = Some (cls_set_exposure cls).
Proof.
  unfold class_getattr. rewrite decide_False by discriminate.
  by rewrite decide_True.
Qed.

Lemma exposure_descriptor cls (d : D) :
  exists p,
    dict_get (KW Exposure)
      (cam_props (register_standard_properties cls (Device_init d)))
    = Some p
    /\ getter p = cls_get_exposure cls
    /\ setter p = Some (cls_set_exposure cls).
Proof.
  unfold register_standard_properties.
  change STANDARD_PROPERTIES
    with (take 7 STANDARD_PROPERTIES
            ++ [(KW Exposure, ("exposure", Tfloat)%string)]
            ++ drop 8 STANDARD_PROPERTIES).
  rewrite !foldl_app, register_all_other
    by (repeat constructor; discriminate).
  set (cam7 := foldl _ _ (take 7 _)).
  cbn [foldl]. unfold register_standard_property.
  change ("get_" +:+ "exposure") with "get_exposure".
  change ("set_" +:+ "exposure") with "set_exposure".
  rewrite class_getattr_get_exposure, class_getattr_set_exposure.
  unfold register_property. cbn [cam_props].
  rewrite dict_get_set_eq. eexists. by repeat split.
Qed.

(** X6: every constructed camera has the Exposure property, read with the
    class's get_exposure and written with its set_exposure, so it is never
    read-only. *)
Theorem exposure_always_writable cls (d : D) cam :
  CameraDevice_init cls d = Ok cam ->
  is_property_read_only cam (KW Exposure) = Some false
  /\ get_property_value cam (KW Exposure)
     = Some (cls_get_exposure cls (cam_dev cam) []).2
  /\ exists p,
       dict_get (KW Exposure) (cam_props cam) = Some p
       /\ getter p = cls_get_exposure cls
       /\ setter p = Some (cls_set_exposure cls).
Proof.
  unfold CameraDevice_init. intros Hinit.
  assert (cam = register_standard_properties cls (Device_init d)) as ->.
  { destruct (cls_snap cls), (cls_start_sequence cls); congruence. }
  destruct (exposure_descriptor cls d) as (p & Hp & Hg & Hs).
  unfold is_property_read_only, get_property_value.
  rewrite Hp, Hg, Hs. repeat split; eauto.
Qed.

(** *** Buffer operations over a whole sequence *)










(** X8: a class that overrides start_sequence but not snap is accepted by
    the constructor, yet its snap raises NotImplementedError and changes
    nothing; and the default sequence, should it be run on a class without
    snap with a count of at least 1 (or None), a provider that hands out
    arrays of the requested shape and a sensor shape without negative
    extent, takes one buffer from the provider on its first pull, raises
    that error, and is finished.  This holds whatever ROI is stored and
    however many axes the sensor has. *)
Theorem snap_not_implemented cls gb (n : option Z) (wd : world) :
  cls_snap cls = None ->
  good_provider gb ->
  Forall (fun d => 0 <= d) (sensor_shape cls (w_cam wd)) ->
  0 < (match n with Some c => c | None => 2 ^ 63 end) ->
  (forall cam (buf : ndarray px),
     snap cls cam buf
     = (cam,
        Raise (Exn NotImplementedError
                 (cls_name cls
                    +:+ " must implement snap() or start_sequence()"))))
  /\ (forall (d : D),
        cls_start_sequence cls <> None ->
        CameraDevice_init cls d
        = Ok (register_standard_properties cls (Device_init d)))
  /\ exists wd' new,
       next cls (start_sequence n gb) wd
       = (GenDone, wd',
          Raised (Exn NotImplementedError
                    (cls_name cls
                       +:+ " must implement snap() or start_sequence()")))
       /\ w_cam wd' = w_cam wd
       /\ w_log wd' = w_log wd ++ new
       /\ count_events is_request new = 1
       /\ count_events is_snap new = 0
       /\ next cls GenDone wd' = (GenDone, wd', StopIteration).
Proof.
  intros Hsnap Hg Hsens Hpos.
  assert (forall cam (buf : ndarray px),
            snap cls cam buf
            = (cam,
               Raise (Exn NotImplementedError
                        (cls_name cls
                           +:+ " must implement snap() or start_sequence()"))))
    as Hraise.
  { intros cam buf. unfold snap. by rewrite Hsnap. }
  split; [exact Hraise |]. split.
  { intros d Hseq. unfold CameraDevice_init. rewrite Hsnap.
    by destruct (cls_start_sequence cls). }
  simpl.
  destruct (_roi (w_cam wd)) as [[[[x y] w] h]|] eqn:Hroi.
  - unfold np_empty.
    assert (forallb (fun d => 0 <=? d) (sensor_shape cls (w_cam wd)) = true)
      as ->.
    { apply forallb_forall. intros d Hd. apply Z.leb_le.
      rewrite Forall_forall in Hsens. apply Hsens.
      by apply list_elem_of_In. }
    unfold roi_loop.
    destruct (Z.ltb_spec 0 (match n with Some c => c | None => 2 ^ 63 end));
      [| lia].
    destruct (gb _ _ _) as [bufs1 b] eqn:Hgb.
    destruct (good_provider_lookup _ _ _ _ _ _ Hg Hgb) as (out & -> & _).
    rewrite Hraise. unfold log_event. simpl.
    eexists _, [EvEmpty _; EvGetBuffer _ b].
    split; [reflexivity |]. rewrite <- app_assoc. by repeat split.
  - unfold noroi_loop.
    destruct (Z.ltb_spec 0 (match n with Some c => c | None => 2 ^ 63 end));
      [| lia].
    destruct (gb _ _ _) as [bufs1 b] eqn:Hgb.
    destruct (good_provider_lookup _ _ _ _ _ _ Hg Hgb) as (out & -> & _).
    rewrite Hraise.
    eexists _, [EvGetBuffer _ b].
    split; [reflexivity |]. by repeat split.
Qed.

(** *** Registering again *)

Lemma dict_set_same {K V} `{EqDecision K} (k : K) (v : V) d :
  dict_get k d = Some v -> dict_set k v d = d.
Proof.
  induction d as [|[k' v'] d IH]; simpl; [done |].
  destruct (decide (k = k')) as [->|Hne].
  - by intros [= ->].
  - intros Hg. by rewrite IH.
Qed.

Lemma standard_descriptor_key cls item e :
  standard_descriptor cls item = Some e -> e.1 = item.1.
Proof.
  unfold standard_descriptor.
  destruct (class_getattr cls ("get_" +:+ item.2.1)); [| done].
  by intros [= <-].
Qed.

Lemma dict_get_standard cls items item e :
  NoDup items.*1 ->
  item ∈ items ->
  standard_descriptor cls item = Some e ->
  dict_get item.1 (omap (standard_descriptor cls) items) = Some e.2.
Proof.
  intros Hnd Hin He. induction items as [|it items IH]; [by inversion Hin |].
  apply NoDup_cons in Hnd as [Hnin Hnd].
  apply elem_of_cons in Hin as [<-|Hin]; simpl.
  - rewrite He. destruct e as [k v]. simpl.
    apply standard_descriptor_key in He. simpl in He. subst k.
    by rewrite decide_True.
  - destruct (standard_descriptor cls it) as [[k v]|] eqn:Hit;
      [| by apply IH].
    simpl. apply standard_descriptor_key in Hit. simpl in Hit. subst k.
    rewrite decide_False; [by apply IH |].
    intros Heq. apply Hnin. rewrite <- Heq.
    apply list_elem_of_fmap. by exists item.
Qed.

Lemma register_standard_property_again cls cam item e :
  standard_descriptor cls item = Some e ->
  dict_get item.1 (cam_props cam) = Some e.2 ->
  register_standard_property cls cam item = cam.
Proof.
  destruct item as [name [snake ty]]. unfold standard_descriptor. simpl.
  destruct (class_getattr cls ("get_" +:+ snake)); [| done].
  intros [= <-]. simpl. intros Hget.
  unfold register_property. rewrite (dict_set_same _ _ _ Hget).
  by destruct cam.
Qed.

Lemma register_fold_again cls items cam :
  (forall item e,
     item ∈ items ->
     standard_descriptor cls item = Some e ->
     dict_get item.1 (cam_props cam) = Some e.2) ->
  foldl (register_standard_property cls) cam items = cam.
Proof.
  induction items as [|item items IH]; intros Hall; [done |].
  cbn [foldl].
  assert (register_standard_property cls cam item = cam) as ->.
  { destruct (standard_descriptor cls item) as [e|] eqn:He.
    - apply (register_standard_property_again _ _ _ e He).
      apply Hall; [by left | done].
    - destruct item as [name [snake ty]].
      unfold standard_descriptor in He. simpl in He.
      unfold register_standard_property.
      by destruct (class_getattr cls ("get_" +:+ snake)). }
  apply IH. intros it e Hin. apply Hall. by right.
Qed.

(** X11: register_standard_properties is idempotent on a constructed
    camera: running it again finds every property already filed under its
    name and leaves the registry, its order included, and the rest of the
    camera as they are. *)
Theorem register_standard_properties_again cls (d : D) cam :
  CameraDevice_init cls d = Ok cam ->
  register_standard_properties cls cam = cam.
Proof.
  unfold CameraDevice_init. intros Hinit.
  assert (cam = register_standard_properties cls (Device_init d)) as ->.
  { destruct (cls_snap cls), (cls_start_sequence cls); congruence. }
  unfold register_standard_properties at 1.
  apply register_fold_again. intros item e Hin He.
  unfold register_standard_properties.
  rewrite register_fold_props;
    [| apply STANDARD_PROPERTIES_NoDup | done].
  cbn [Device_init cam_props app].
  by apply dict_get_standard; [apply STANDARD_PROPERTIES_NoDup | |].
Qed.

End Facts.

(** *** The properties at concrete cameras *)

Lemma roi_calls_keep_roi_within_witness :
  sensor_shape Demo.SnapOnly Demo.cam0 = [4; 6]
  /\ roi_valid (do_roi_calls Demo.SnapOnly Demo.cam0 Demo.roi_calls) 4 6
  /\ _roi (do_roi_calls Demo.SnapOnly Demo.cam0 Demo.roi_calls)
     = Some (0, 0, 6, 4).
Proof.
  split; [reflexivity |].
  split; [| reflexivity].
  exact (proj1 (roi_calls_keep_roi_within Demo.SnapOnly Demo.cam0
                  Demo.roi_calls 4 6 [] eq_refl I)).
Defined.

Lemma get_roi_after_set_roi_witness :
  get_roi Demo.SnapOnly Demo.cam_roi = Ok (1, 2, 3, 2)
  /\ shape Demo.SnapOnly Demo.cam_roi = [2; 3].
Proof.
  destruct (get_roi_after_set_roi Demo.SnapOnly Demo.cam0 1 2 3 2
              Demo.cam_roi eq_refl) as (Hget & Hshape & _).
  exact (conj Hget Hshape).
Defined.

Lemma set_roi_accepts_get_roi_witness :
  exists x y w h,
    get_roi Demo.SnapOnly Demo.cam0 = Ok (x, y, w, h)
    /\ roi_within (x, y, w, h) 4 6
    /\ set_roi Demo.SnapOnly Demo.cam0 x y w h
       = (with_roi Demo.cam0 (Some (x, y, w, h)), Ok tt)
    /\ get_roi Demo.SnapOnly (with_roi Demo.cam0 (Some (x, y, w, h)))
       = Ok (x, y, w, h).
Proof.
  apply (set_roi_accepts_get_roi Demo.SnapOnly Demo.cam0 4 6 []
           eq_refl); [lia | lia | exact I].
Defined.

Lemma no_roi_without_room_witness :
  (exists msg,
     set_roi Demo.LineScan Demo.cam0 0 0 1 1
     = (Demo.cam0, Raise (Exn ValueError msg)))
  /\ _roi (do_roi_calls Demo.LineScan Demo.cam0 Demo.roi_calls) = None.
Proof.
  destruct (no_roi_without_room Demo.LineScan Demo.cam0 I) as [Hset Hcalls].
  split; [apply Hset | by apply Hcalls].
Defined.

Lemma registry_is_standard_table_witness :
  (cam_props (register_standard_properties Demo.FixedBinning
                (Device_init 0))).*1
  = [KW Binning; KW Exposure].
Proof.
  rewrite (proj1 (registry_is_standard_table Demo.FixedBinning 0 _ eq_refl)).
  reflexivity.
Defined.

Lemma exposure_always_writable_witness :
  is_property_read_only
    (register_standard_properties Demo.SnapOnly (Device_init 0))
    (KW Exposure)
  = Some false.
Proof.
  exact (proj1 (exposure_always_writable Demo.SnapOnly 0 _ eq_refl)).
Defined.


Lemma snap_not_implemented_witness :
  (exists wd',
     next Demo.SequenceOnly (start_sequence (Some 2) Demo.one_slot)
       Demo.world0
     = (GenDone, wd',
        Raised (Exn NotImplementedError
                  "SequenceOnly must implement snap() or start_sequence()")))
  /\ (exists wd',
        next Demo.ColourSequenceOnly (start_sequence None Demo.one_slot)
          Demo.world_roi
        = (GenDone, wd',
           Raised (Exn NotImplementedError
                     "ColourSequenceOnly must implement snap() or start_sequence()"))).
Proof.
  split.
  - destruct (snap_not_implemented Demo.SequenceOnly Demo.one_slot (Some 2)
                Demo.world0 eq_refl one_slot_good)
      as (_ & _ & wd' & new & Hnext & _);
      [repeat (constructor; [lia |]); constructor | lia |].
    exists wd'. exact Hnext.
  - destruct (snap_not_implemented Demo.ColourSequenceOnly Demo.one_slot None
                Demo.world_roi eq_refl one_slot_good)
      as (_ & _ & wd' & new & Hnext & _);
      [repeat (constructor; [lia |]); constructor | lia |].
    exists wd'. exact Hnext.
Defined.

Lemma register_standard_properties_again_witness :
  register_standard_properties Demo.FixedBinning
    (register_standard_properties Demo.FixedBinning (Device_init 0))
  = register_standard_properties Demo.FixedBinning (Device_init 0).
Proof.
  exact (register_standard_properties_again Demo.FixedBinning 0 _ eq_refl).
Defined.

End CameraMore.

(** ** More on the state devices of the tests *)

Module StateDeviceMore.
Import Py StateDevice.

Lemma SimStateDevice_set_state_keeps (dict : gmap Z string)
    (d : SimStateDevice) p :
  _state_to_label d = dict /\ _current_label d = dict !! _current_state d ->
  _state_to_label (SimStateDevice_set_state d p).1 = dict
  /\ _current_label (SimStateDevice_set_state d p).1
     = dict !! _current_state (SimStateDevice_set_state d p).1.
Proof.
  intros [Hmap Hlabel]. unfold SimStateDevice_set_state.
  destruct (match p with PosInt i => Some i | PosStr s => parse_int s end);
    simpl; [by rewrite Hmap | done].
Qed.

Lemma SimStateDevice_set_states_keep (dict : gmap Z string) ps
    (d : SimStateDevice) :
  _state_to_label d = dict /\ _current_label d = dict !! _current_state d ->
  _state_to_label (SimStateDevice_set_states d ps) = dict
  /\ _current_label (SimStateDevice_set_states d ps)
     = dict !! _current_state (SimStateDevice_set_states d ps).
Proof.
  revert d. induction ps as [|p ps IH]; intros d Hd; [done |].
  apply IH. by apply SimStateDevice_set_state_keeps.
Qed.

(** X9: from its constructor on, through any sequence of set_state calls on
    the test device (integers or strings, in or out of the mapping, raising
    or not), the mapping is the state_dict it was built with and the stored
    label is the mapping's label of the stored state, None when the state
    has no label. *)
Theorem SimStateDevice_label_follows_state (dict : gmap Z string)
    (ps : list position) :
  _state_to_label (SimStateDevice_set_states (SimStateDevice_init dict) ps)
  = dict
  /\ get_label (SimStateDevice_set_states (SimStateDevice_init dict) ps)
     = dict !! get_state
                 (SimStateDevice_set_states (SimStateDevice_init dict) ps)
  /\ synced (SimStateDevice_set_states (SimStateDevice_init dict) ps).
Proof.
  destruct (SimStateDevice_set_states_keep dict ps (SimStateDevice_init dict))
    as [Hmap Hlabel]; [done |].
  split; [exact Hmap |]. split; [exact Hlabel |].
  unfold synced, label_of, get_label, get_state. by rewrite Hmap, Hlabel.
Qed.

Section Complex.
Context (super_get_property_value : ComplexStateDevice -> string -> res pyval)
        (super_set_property_value :
           ComplexStateDevice -> string -> pyval
           -> ComplexStateDevice * res unit).

(** X10: on the test's ComplexStateDevice, setting "Intensity" to an
    integer, or to a string that int() accepts (decimal digits, with an
    optional sign, whitespace around and single underscores between
    digits), and reading it back returns that integer, without going
    through the base class and without touching state or label; a value
    that int() refuses raises its error and changes nothing; any other
    property name is handed to the base class as it is. *)
Theorem intensity_round_trip (d : ComplexStateDevice) (value : pyval) (z : Z) :
  py_int value = Ok z ->
  ComplexStateDevice_set_property_value super_set_property_value d
    "Intensity" value
  = ({| csd_state := csd_state d; _intensity := z |}, Ok tt)
  /\ ComplexStateDevice_get_property_value super_get_property_value
       (ComplexStateDevice_set_property_value super_set_property_value d
          "Intensity" value).1 "Intensity"
     = Ok (PInt z)
  /\ (forall value' e,
        py_int value' = Raise e ->
        ComplexStateDevice_set_property_value super_set_property_value d
          "Intensity" value' = (d, Raise e))
  /\ (forall name v,
        name <> "Intensity" ->
        ComplexStateDevice_set_property_value super_set_property_value d
          name v = super_set_property_value d name v
        /\ ComplexStateDevice_get_property_value super_get_property_value d
             name = super_get_property_value d name).
Proof.
  intros Hint.
  unfold ComplexStateDevice_set_property_value,
    ComplexStateDevice_get_property_value.
  rewrite !decide_True by done. rewrite Hint. simpl.
  split; [done |]. split; [done |]. split.
  - intros value' e Hbad. by rewrite Hbad.
  - intros name v Hne. by rewrite !decide_False.
Qed.

End Complex.

Lemma intensity_round_trip_witness :
  ComplexStateDevice_get_property_value (fun _ n => Raise (PropertyNotFound n))
    (ComplexStateDevice_set_property_value
       (fun d n _ => (d, Raise (PropertyNotFound n)))
       (ComplexStateDevice_init {[ 0 := "UV"; 1 := "BLUE" ]})
       "Intensity" (PStr " +1_000 ")).1 "Intensity"
  = Ok (PInt 1000)
  /\ ComplexStateDevice_set_property_value
       (fun d n _ => (d, Raise (PropertyNotFound n)))
       (ComplexStateDevice_init {[ 0 := "UV"; 1 := "BLUE" ]})
       "Intensity" (PStr "7x")
     = (ComplexStateDevice_init {[ 0 := "UV"; 1 := "BLUE" ]},
        Raise invalid_literal).
Proof.
  pose proof (intensity_round_trip
                (fun _ n => Raise (PropertyNotFound n))
                (fun d n _ => (d, Raise (PropertyNotFound n)))
                (ComplexStateDevice_init {[ 0 := "UV"; 1 := "BLUE" ]})
                (PStr " +1_000 ") 1000 eq_refl) as (_ & Hget & Hbad & _).
  split; [exact Hget |].
  exact (Hbad (PStr "7x") invalid_literal eq_refl).
Defined.

End StateDeviceMore.
